(** * BXI ELF3 actuator constants and velocity-task configuration

    A shallow embedding of

    - [src/mjlab/asset_zoo/robots/bxi_elf3/elf3_constants.py]
      (motor classes, gains, the per-joint actuator table and the
      module-level loop that fills [ELF3_ACTION_SCALE]), and
    - [src/mjlab/tasks/velocity/config/elf3/env_cfgs.py]
      ([bxi_elf3_rough_env_cfg] and [bxi_elf3_flat_env_cfg]).

    Numbers.  A Python [float] is an IEEE 754 binary64 value and CPython's
    [+], [*] and [/] on floats are the correctly rounded binary64
    operations; they are modelled by Rocq's primitive floats, which are the
    same operations.  An [int] literal of elf3_constants.py that takes part
    in float arithmetic only ([1 + 65 / 19], [STIFFNESS_BXI70 * 2]) is
    written as the float CPython first converts it to; all of them are far
    below 2^53, so the conversion is exact.  An effort limit is kept as the
    [int] or [float] the source writes ([number] below), since the robot
    configuration holds it as written; [0.25 * e / s] converts it.
    [65 / 19] on two ints is CPython's correctly rounded true division,
    which is the binary64 quotient of the two converted operands.

    Exceptions.  Code that can raise returns a [result]; [Raise e] is the
    exception that ends the run. *)

From Stdlib Require Import Floats Sint63 ZArith QArith Qabs List String Bool Lia.
From Stdlib Require Import Reals Machin Qreals Lra.
Import ListNotations.

Set Warnings "-inexact-float,-register-all".

(** ** Exceptions and the error monad *)

Inductive exn : Type :=
| AssertionError
| KeyError (key : string)
| AttributeError (name : string)
| TypeError
| ZeroDivisionError
| InvalidSpec.

Inductive result (A : Type) : Type :=
| Ok (a : A)
| Raise (e : exn).

Arguments Ok {A} a.
Arguments Raise {A} e.

Definition bind {A B : Type} (r : result A) (k : A -> result B) : result B :=
  match r with
  | Ok a => k a
  | Raise e => Raise e
  end.

Notation "x <- c ;; k" := (bind c (fun x => k))
  (at level 61, c at next level, right associativity).

(** What a module-level call left in its variable; [default] is never
    reached once the call is shown to return. *)
Definition returned {A : Type} (r : result A) (default : A) : A :=
  match r with
  | Ok a => a
  | Raise _ => default
  end.

Definition raises {A : Type} (r : result A) : bool :=
  match r with
  | Ok _ => false
  | Raise _ => true
  end.

(** ** Python float operations *)

Module PyFloat.

Local Open Scope float_scope.

(** [a / b] on floats: ZeroDivisionError when [b] compares equal to zero
    (either sign), the binary64 quotient otherwise. *)
Definition truediv (a b : float) : result float :=
  if b =? 0 then Raise ZeroDivisionError else Ok (a / b).

(** [x ** 2].  CPython hands this to the C library's [pow (x, 2.0)]; for a
    finite [x] whose exact square is not a near-tie between two neighbouring
    floats that is the correctly rounded square, [x * x]
    (see [NATURAL_FREQ_square_not_a_near_tie] below for the one use). *)
Definition pow2 (x : float) : float := x * x.

(** The exact rational value of a finite float; 0 for an infinity or a
    NaN, which [is_finite] tells apart. *)
Definition value (x : float) : Q :=
  match Prim2SF x with
  | S754_finite s m e =>
      let n := if s then Z.neg m else Z.pos m in
      match e with
      | Z0 => inject_Z n
      | Zpos p => inject_Z (n * 2 ^ Zpos p)
      | Zneg p => Qmake n (2 ^ p)%positive
      end
  | _ => 0%Q
  end.

Definition is_finite (x : float) : bool :=
  match Prim2SF x with
  | S754_finite _ _ _ | S754_zero _ => true
  | _ => false
  end.

End PyFloat.

(** ** Python dicts with string keys

    A [dict] keeps its keys in insertion order; assigning to a key that is
    already present replaces the value and leaves the key where it is. *)

Section Dict.

Context {V : Type}.

Definition dict_of : Type := list (string * V).

Fixpoint dict_get (k : string) (d : dict_of) : option V :=
  match d with
  | [] => None
  | (k', v) :: rest => if String.eqb k k' then Some v else dict_get k rest
  end.

(** [d[k] = v] *)
Fixpoint dict_set (k : string) (v : V) (d : dict_of) : dict_of :=
  match d with
  | [] => [(k, v)]
  | (k', v') :: rest =>
      if String.eqb k k' then (k', v) :: rest else (k', v') :: dict_set k v rest
  end.

(** [k in d] *)
Definition dict_mem (k : string) (d : dict_of) : bool :=
  match dict_get k d with
  | Some _ => true
  | None => false
  end.

(** The dict without key [k] (the effect of [del d[k]] and of [d.pop (k, None)]
    when [k] is present). *)
Fixpoint dict_remove (k : string) (d : dict_of) : dict_of :=
  match d with
  | [] => []
  | (k', v') :: rest =>
      if String.eqb k k' then rest else (k', v') :: dict_remove k rest
  end.

Definition dict_keys (d : dict_of) : list string := map fst d.

End Dict.

Arguments dict_of V : clear implicits.

(** ** mjlab.utils.actuator *)

Module Actuator.

Local Open Scope float_scope.

(** The dataclass [ElectricActuator]; only its construction by keyword and
    the reading of its fields appear in the sources. *)
Record ElectricActuator : Type := mkElectricActuator {
  reflected_inertia : float;
  velocity_limit : float;
  effort_limit : float
}.

(** Modelled from the spec: the per-stage part of
    [reflected_inertia_from_two_stage_planetary] below, "each stage's rotor
    inertia is divided by the square of the cumulative gear ratio up to and
    including that stage"; [cumulative] is the product of the ratios of the
    stages already passed. *)
Fixpoint stage_contributions (cumulative : float)
    (rotor_inertias gear_ratios : list float) : list float :=
  match rotor_inertias, gear_ratios with
  | i :: inertias, g :: gears =>
      let c := cumulative * g in
      i / (c * c) :: stage_contributions c inertias gears
  | _, _ => []
  end.

(** Modelled from the spec: the body of
    [reflected_inertia_from_two_stage_planetary], which elf3_constants.py
    imports from [mjlab.utils.actuator], is not among the sources.  Spec 4.1:
    "given N rotor-inertia values and N gear ratios for N planetary stages in
    series, returns total armature as seen at the output.  [...] each stage's
    rotor inertia is divided by the square of the cumulative gear ratio up to
    and including that stage [...]; the stage contributions are then summed.
    [...] fails with InvalidSpec when lengths mismatch or any ratio < 1." *)
Definition reflected_inertia_from_two_stage_planetary
    (rotor_inertias gear_ratios : list float) : result float :=
  if negb (Nat.eqb (List.length rotor_inertias) (List.length gear_ratios)) then
    Raise InvalidSpec
  else if existsb (fun g => g <? 1) gear_ratios then
    Raise InvalidSpec
  else
    Ok (fold_left PrimFloat.add
          (stage_contributions 1 rotor_inertias gear_ratios) 0).

End Actuator.

(** ** mjlab.actuator and mjlab.entity: the configuration dataclasses *)

(** A number as a field holds it: a Python [int] or a [float].  [Int] takes
    the ints of 63 signed bits, which is room for every int of the module. *)
Inductive number : Type :=
| Int (n : int)
| Float (f : float).

Arguments Int n%_sint63.

(** [float (n)]: the float nearest to the int (ties to even), which is how
    CPython converts the int operand of a float operation. *)
Definition float_of_int (n : int) : float :=
  if Sint63.ltb n 0 then (- PrimFloat.of_uint63 (Uint63.opp n))%float
  else PrimFloat.of_uint63 n.

(** A number as an operand of float arithmetic. *)
Definition float_of_number (x : number) : float :=
  match x with
  | Int n => float_of_int n
  | Float f => f
  end.

Coercion float_of_number : number >-> float.

(** [BuiltinPositionActuatorCfg], with the fields the module passes by
    keyword; [effort_limit] is declared [float | None] and is given an
    [int] for four of the bindings below. *)
Record BuiltinPositionActuatorCfg : Type := mkBuiltinPositionActuatorCfg {
  target_names_expr : list string;
  stiffness : float;
  damping : float;
  effort_limit : option number;
  armature : float
}.

(** What a tuple of actuator configurations may hold: the loop over
    [ELF3_ARTICULATION_NEW.actuators] asserts
    [isinstance (a, BuiltinPositionActuatorCfg)] on every element. *)
Inductive ActuatorCfg : Type :=
| BuiltinPosition (c : BuiltinPositionActuatorCfg)
| OtherActuatorCfg (class_name : string).

Record EntityArticulationInfoCfg : Type := mkEntityArticulationInfoCfg {
  actuators : list ActuatorCfg;
  soft_joint_pos_limit_factor : float
}.

(** ** elf3_constants.py: motor classes and gains *)

Local Open Scope string_scope.
Local Open Scope float_scope.

(** *** Motor specs *)

Definition ROTOR_INERTIAS_BXI50 : list float :=
  [ (0.0760e-4 + 0.0300e-4);
    0.0892e-4;
    0.1807e-4 ].
Definition GEARS_BXI50 : list float :=
  [ 1;
    1 + (65 / 19);
    1 + (65 / 19) ].
Definition ARMATURE_BXI50 : float :=
  returned
    (Actuator.reflected_inertia_from_two_stage_planetary
       ROTOR_INERTIAS_BXI50 GEARS_BXI50) nan.

Definition ROTOR_INERTIAS_BXI70 : list float :=
  [ (0.2620e-4 + 0.0802e-4);
    0.3099e-4;
    0.5617e-4 ].
Definition GEARS_BXI70 : list float :=
  [ 1;
    1 + (65 / 19);
    1 + (65 / 19) ].
Definition ARMATURE_BXI70 : float :=
  returned
    (Actuator.reflected_inertia_from_two_stage_planetary
       ROTOR_INERTIAS_BXI70 GEARS_BXI70) nan.

Definition ROTOR_INERTIAS_BXI85 : list float :=
  [ (0.8590e-4 + 0.2683e-4);
    0.7604e-4;
    1.3499e-4 ].
Definition GEARS_BXI85 : list float :=
  [ 1;
    1 + (65 / 19);
    1 + (65 / 19) ].
Definition ARMATURE_BXI85 : float :=
  returned
    (Actuator.reflected_inertia_from_two_stage_planetary
       ROTOR_INERTIAS_BXI85 GEARS_BXI85) nan.

Definition ACTUATOR_BXI50 : Actuator.ElectricActuator := {|
  Actuator.reflected_inertia := ARMATURE_BXI50;
  Actuator.velocity_limit := 20.0;
  Actuator.effort_limit := 21.0
|}.
Definition ACTUATOR_BXI70 : Actuator.ElectricActuator := {|
  Actuator.reflected_inertia := ARMATURE_BXI70;
  Actuator.velocity_limit := 20.0;
  Actuator.effort_limit := 45.0
|}.
Definition ACTUATOR_BXI85 : Actuator.ElectricActuator := {|
  Actuator.reflected_inertia := ARMATURE_BXI85;
  Actuator.velocity_limit := 20.0;
  Actuator.effort_limit := 150.0
|}.

Definition NATURAL_FREQ : float := 10 * 2.0 * 3.1415926535.  (* 10Hz *)
Definition DAMPING_RATIO : float := 2.0.

Definition STIFFNESS_BXI50 : float := ARMATURE_BXI50 * PyFloat.pow2 NATURAL_FREQ.
Definition STIFFNESS_BXI70 : float := ARMATURE_BXI70 * PyFloat.pow2 NATURAL_FREQ.
Definition STIFFNESS_BXI85 : float := ARMATURE_BXI85 * PyFloat.pow2 NATURAL_FREQ.

Definition DAMPING_BXI50 : float := 2.0 * DAMPING_RATIO * ARMATURE_BXI50 * NATURAL_FREQ.
Definition DAMPING_BXI70 : float := 2.0 * DAMPING_RATIO * ARMATURE_BXI70 * NATURAL_FREQ.
Definition DAMPING_BXI85 : float := 2.0 * DAMPING_RATIO * ARMATURE_BXI85 * NATURAL_FREQ.

(** *** Actuator groups *)

Definition ELF3_ACTUATOR_BXI50 : BuiltinPositionActuatorCfg := {|
  target_names_expr :=
    [ ".*_shoulder_z_joint";
      ".*_wrist_x_joint";
      ".*_wrist_y_joint";
      ".*_wrist_z_joint" ];
  stiffness := STIFFNESS_BXI50;
  damping := DAMPING_BXI50;
  effort_limit := Some (Float (Actuator.effort_limit ACTUATOR_BXI50));
  armature := Actuator.reflected_inertia ACTUATOR_BXI50
|}.
Definition ELF3_ACTUATOR_BXI70 : BuiltinPositionActuatorCfg := {|
  target_names_expr :=
    [ ".*_hip_z_joint";
      ".*_shoulder_y_joint";
      ".*_shoulder_x_joint";
      ".*_elbow_y_joint" ];
  stiffness := STIFFNESS_BXI70;
  damping := DAMPING_BXI70;
  effort_limit := Some (Float (Actuator.effort_limit ACTUATOR_BXI70));
  armature := Actuator.reflected_inertia ACTUATOR_BXI70
|}.
Definition ELF3_ACTUATOR_BXI85 : BuiltinPositionActuatorCfg := {|
  target_names_expr :=
    [ "waist_z_joint";
      ".*_hip_y_joint";
      ".*_hip_x_joint";
      ".*_knee_y_joint" ];
  stiffness := STIFFNESS_BXI85;
  damping := DAMPING_BXI85;
  effort_limit := Some (Float (Actuator.effort_limit ACTUATOR_BXI85));
  armature := Actuator.reflected_inertia ACTUATOR_BXI85
|}.

(** The source's comment on the four bindings below: "Waist pitch/roll and
    ankles are 4-bar linkages with 2 BXI50 actuators. [...] we assume a
    nominal 1:1 gear ratio. Under this assumption, the joint armature in the
    nominal configuration is approximated as the sum of the 2 actuators'
    armatures." *)
Definition ELF3_ACTUATOR_WAIST_Y : BuiltinPositionActuatorCfg := {|
  target_names_expr := [ "waist_y_joint" ];
  stiffness := STIFFNESS_BXI70 * 2;
  damping := DAMPING_BXI70 * 2;
  effort_limit := Some (Int 90);
  armature := Actuator.reflected_inertia ACTUATOR_BXI70 * 2
|}.
Definition ELF3_ACTUATOR_WAIST_X : BuiltinPositionActuatorCfg := {|
  target_names_expr := [ "waist_x_joint" ];
  stiffness := STIFFNESS_BXI70 * 3;
  damping := DAMPING_BXI70 * 3;
  effort_limit := Some (Int 100);  (* hardware clip *)
  armature := Actuator.reflected_inertia ACTUATOR_BXI70 * 3
|}.
Definition ELF3_ACTUATOR_ANKLE_Y : BuiltinPositionActuatorCfg := {|
  target_names_expr := [ ".*_ankle_y_joint" ];
  stiffness := STIFFNESS_BXI50 * 2;
  damping := DAMPING_BXI50 * 2;
  effort_limit := Some (Int 40);
  armature := Actuator.reflected_inertia ACTUATOR_BXI50 * 2
|}.
Definition ELF3_ACTUATOR_ANKLE_X : BuiltinPositionActuatorCfg := {|
  target_names_expr := [ ".*_ankle_x_joint" ];
  stiffness := 10.0;  (* passive *)
  damping := 1.0;
  effort_limit := Some (Int 15);  (* hardware clip *)
  armature := Actuator.reflected_inertia ACTUATOR_BXI50 * 1.3
|}.

(** The joint order the module records in its [joint_name_idx] comment. *)
Definition joint_name_idx : list string :=
  [ "waist_y_joint";
    "waist_x_joint";
    "waist_z_joint";
    "l_hip_y_joint";
    "l_hip_x_joint";
    "l_hip_z_joint";
    "l_knee_y_joint";
    "l_ankle_y_joint";
    "l_ankle_x_joint";
    "r_hip_y_joint";
    "r_hip_x_joint";
    "r_hip_z_joint";
    "r_knee_y_joint";
    "r_ankle_y_joint";
    "r_ankle_x_joint";
    "l_shoulder_y_joint";
    "l_shoulder_x_joint";
    "l_shoulder_z_joint";
    "l_elbow_y_joint";
    "l_wrist_x_joint";
    "l_wrist_y_joint";
    "l_wrist_z_joint";
    "r_shoulder_y_joint";
    "r_shoulder_x_joint";
    "r_shoulder_z_joint";
    "r_elbow_y_joint";
    "r_wrist_x_joint";
    "r_wrist_y_joint";
    "r_wrist_z_joint" ].

(** *** One configuration per joint *)

Definition waist_y_joint : BuiltinPositionActuatorCfg := {|
  target_names_expr := ["waist_y_joint"];
  stiffness := stiffness ELF3_ACTUATOR_WAIST_Y;
  damping := damping ELF3_ACTUATOR_WAIST_Y;
  effort_limit := effort_limit ELF3_ACTUATOR_WAIST_Y;
  armature := armature ELF3_ACTUATOR_WAIST_Y
|}.

Definition waist_x_joint : BuiltinPositionActuatorCfg := {|
  target_names_expr := ["waist_x_joint"];
  stiffness := stiffness ELF3_ACTUATOR_WAIST_X;
  damping := damping ELF3_ACTUATOR_WAIST_X;
  effort_limit := effort_limit ELF3_ACTUATOR_WAIST_X;
  armature := armature ELF3_ACTUATOR_WAIST_X
|}.

Definition waist_z_joint : BuiltinPositionActuatorCfg := {|
  target_names_expr := ["waist_z_joint"];
  stiffness := stiffness ELF3_ACTUATOR_BXI85;
  damping := damping ELF3_ACTUATOR_BXI85;
  effort_limit := effort_limit ELF3_ACTUATOR_BXI85;
  armature := armature ELF3_ACTUATOR_BXI85
|}.

Definition l_hip_y_joint : BuiltinPositionActuatorCfg := {|
  target_names_expr := ["l_hip_y_joint"];
  stiffness := stiffness ELF3_ACTUATOR_BXI85;
  damping := damping ELF3_ACTUATOR_BXI85;
  effort_limit := effort_limit ELF3_ACTUATOR_BXI85;
  armature := armature ELF3_ACTUATOR_BXI85
|}.

Definition l_hip_x_joint : BuiltinPositionActuatorCfg := {|
  target_names_expr := ["l_hip_x_joint"];
  stiffness := stiffness ELF3_ACTUATOR_BXI85;
  damping := damping ELF3_ACTUATOR_BXI85;
  effort_limit := effort_limit ELF3_ACTUATOR_BXI85;
  armature := armature ELF3_ACTUATOR_BXI85
|}.

Definition l_hip_z_joint : BuiltinPositionActuatorCfg := {|
  target_names_expr := ["l_hip_z_joint"];
  stiffness := stiffness ELF3_ACTUATOR_BXI70;
  damping := damping ELF3_ACTUATOR_BXI70;
  effort_limit := effort_limit ELF3_ACTUATOR_BXI70;
  armature := armature ELF3_ACTUATOR_BXI70
|}.

Definition l_knee_y_joint : BuiltinPositionActuatorCfg := {|
  target_names_expr := ["l_knee_y_joint"];
  stiffness := stiffness ELF3_ACTUATOR_BXI85;
  damping := damping ELF3_ACTUATOR_BXI85;
  effort_limit := effort_limit ELF3_ACTUATOR_BXI85;
  armature := armature ELF3_ACTUATOR_BXI85
|}.

Definition l_ankle_y_joint : BuiltinPositionActuatorCfg := {|
  target_names_expr := ["l_ankle_y_joint"];
  stiffness := stiffness ELF3_ACTUATOR_ANKLE_Y;
  damping := damping ELF3_ACTUATOR_ANKLE_Y;
  effort_limit := effort_limit ELF3_ACTUATOR_ANKLE_Y;
  armature := armature ELF3_ACTUATOR_ANKLE_Y
|}.

Definition l_ankle_x_joint : BuiltinPositionActuatorCfg := {|
  target_names_expr := ["l_ankle_x_joint"];
  stiffness := stiffness ELF3_ACTUATOR_ANKLE_X;
  damping := damping ELF3_ACTUATOR_ANKLE_X;
  effort_limit := effort_limit ELF3_ACTUATOR_ANKLE_X;
  armature := armature ELF3_ACTUATOR_ANKLE_X
|}.

Definition r_hip_y_joint : BuiltinPositionActuatorCfg := {|
  target_names_expr := ["r_hip_y_joint"];
  stiffness := stiffness ELF3_ACTUATOR_BXI85;
  damping := damping ELF3_ACTUATOR_BXI85;
  effort_limit := effort_limit ELF3_ACTUATOR_BXI85;
  armature := armature ELF3_ACTUATOR_BXI85
|}.

Definition r_hip_x_joint : BuiltinPositionActuatorCfg := {|
  target_names_expr := ["r_hip_x_joint"];
  stiffness := stiffness ELF3_ACTUATOR_BXI85;
  damping := damping ELF3_ACTUATOR_BXI85;
  effort_limit := effort_limit ELF3_ACTUATOR_BXI85;
  armature := armature ELF3_ACTUATOR_BXI85
|}.

Definition r_hip_z_joint : BuiltinPositionActuatorCfg := {|
  target_names_expr := ["r_hip_z_joint"];
  stiffness := stiffness ELF3_ACTUATOR_BXI70;
  damping := damping ELF3_ACTUATOR_BXI70;
  effort_limit := effort_limit ELF3_ACTUATOR_BXI70;
  armature := armature ELF3_ACTUATOR_BXI70
|}.

Definition r_knee_y_joint : BuiltinPositionActuatorCfg := {|
  target_names_expr := ["r_knee_y_joint"];
  stiffness := stiffness ELF3_ACTUATOR_BXI85;
  damping := damping ELF3_ACTUATOR_BXI85;
  effort_limit := effort_limit ELF3_ACTUATOR_BXI85;
  armature := armature ELF3_ACTUATOR_BXI85
|}.

Definition r_ankle_y_joint : BuiltinPositionActuatorCfg := {|
  target_names_expr := ["r_ankle_y_joint"];
  stiffness := stiffness ELF3_ACTUATOR_ANKLE_Y;
  damping := damping ELF3_ACTUATOR_ANKLE_Y;
  effort_limit := effort_limit ELF3_ACTUATOR_ANKLE_Y;
  armature := armature ELF3_ACTUATOR_ANKLE_Y
|}.

Definition r_ankle_x_joint : BuiltinPositionActuatorCfg := {|
  target_names_expr := ["r_ankle_x_joint"];
  stiffness := stiffness ELF3_ACTUATOR_ANKLE_X;
  damping := damping ELF3_ACTUATOR_ANKLE_X;
  effort_limit := effort_limit ELF3_ACTUATOR_ANKLE_X;
  armature := armature ELF3_ACTUATOR_ANKLE_X
|}.

Definition l_shoulder_y_joint : BuiltinPositionActuatorCfg := {|
  target_names_expr := ["l_shoulder_y_joint"];
  stiffness := stiffness ELF3_ACTUATOR_BXI70;
  damping := damping ELF3_ACTUATOR_BXI70;
  effort_limit := effort_limit ELF3_ACTUATOR_BXI70;
  armature := armature ELF3_ACTUATOR_BXI70
|}.

Definition l_shoulder_x_joint : BuiltinPositionActuatorCfg := {|
  target_names_expr := ["l_shoulder_x_joint"];
  stiffness := stiffness ELF3_ACTUATOR_BXI70;
  damping := damping ELF3_ACTUATOR_BXI70;
  effort_limit := effort_limit ELF3_ACTUATOR_BXI70;
  armature := armature ELF3_ACTUATOR_BXI70
|}.

Definition l_shoulder_z_joint : BuiltinPositionActuatorCfg := {|
  target_names_expr := ["l_shoulder_z_joint"];
  stiffness := stiffness ELF3_ACTUATOR_BXI50;
  damping := damping ELF3_ACTUATOR_BXI50;
  effort_limit := effort_limit ELF3_ACTUATOR_BXI50;
  armature := armature ELF3_ACTUATOR_BXI50
|}.

Definition l_elbow_y_joint : BuiltinPositionActuatorCfg := {|
  target_names_expr := ["l_elbow_y_joint"];
  stiffness := stiffness ELF3_ACTUATOR_BXI70;
  damping := damping ELF3_ACTUATOR_BXI70;
  effort_limit := effort_limit ELF3_ACTUATOR_BXI70;
  armature := armature ELF3_ACTUATOR_BXI70
|}.

Definition l_wrist_x_joint : BuiltinPositionActuatorCfg := {|
  target_names_expr := ["l_wrist_x_joint"];
  stiffness := stiffness ELF3_ACTUATOR_BXI50;
  damping := damping ELF3_ACTUATOR_BXI50;
  effort_limit := effort_limit ELF3_ACTUATOR_BXI50;
  armature := armature ELF3_ACTUATOR_BXI50
|}.

Definition l_wrist_y_joint : BuiltinPositionActuatorCfg := {|
  target_names_expr := ["l_wrist_y_joint"];
  stiffness := stiffness ELF3_ACTUATOR_BXI50;
  damping := damping ELF3_ACTUATOR_BXI50;
  effort_limit := effort_limit ELF3_ACTUATOR_BXI50;
  armature := armature ELF3_ACTUATOR_BXI50
|}.

Definition l_wrist_z_joint : BuiltinPositionActuatorCfg := {|
  target_names_expr := ["l_wrist_z_joint"];
  stiffness := stiffness ELF3_ACTUATOR_BXI50;
  damping := damping ELF3_ACTUATOR_BXI50;
  effort_limit := effort_limit ELF3_ACTUATOR_BXI50;
  armature := armature ELF3_ACTUATOR_BXI50
|}.

Definition r_shoulder_y_joint : BuiltinPositionActuatorCfg := {|
  target_names_expr := ["r_shoulder_y_joint"];
  stiffness := stiffness ELF3_ACTUATOR_BXI70;
  damping := damping ELF3_ACTUATOR_BXI70;
  effort_limit := effort_limit ELF3_ACTUATOR_BXI70;
  armature := armature ELF3_ACTUATOR_BXI70
|}.

Definition r_shoulder_x_joint : BuiltinPositionActuatorCfg := {|
  target_names_expr := ["r_shoulder_x_joint"];
  stiffness := stiffness ELF3_ACTUATOR_BXI70;
  damping := damping ELF3_ACTUATOR_BXI70;
  effort_limit := effort_limit ELF3_ACTUATOR_BXI70;
  armature := armature ELF3_ACTUATOR_BXI70
|}.

Definition r_shoulder_z_joint : BuiltinPositionActuatorCfg := {|
  target_names_expr := ["r_shoulder_z_joint"];
  stiffness := stiffness ELF3_ACTUATOR_BXI50;
  damping := damping ELF3_ACTUATOR_BXI50;
  effort_limit := effort_limit ELF3_ACTUATOR_BXI50;
  armature := armature ELF3_ACTUATOR_BXI50
|}.

Definition r_elbow_y_joint : BuiltinPositionActuatorCfg := {|
  target_names_expr := ["r_elbow_y_joint"];
  stiffness := stiffness ELF3_ACTUATOR_BXI70;
  damping := damping ELF3_ACTUATOR_BXI70;
  effort_limit := effort_limit ELF3_ACTUATOR_BXI70;
  armature := armature ELF3_ACTUATOR_BXI70
|}.

Definition r_wrist_x_joint : BuiltinPositionActuatorCfg := {|
  target_names_expr := ["r_wrist_x_joint"];
  stiffness := stiffness ELF3_ACTUATOR_BXI50;
  damping := damping ELF3_ACTUATOR_BXI50;
  effort_limit := effort_limit ELF3_ACTUATOR_BXI50;
  armature := armature ELF3_ACTUATOR_BXI50
|}.

Definition r_wrist_y_joint : BuiltinPositionActuatorCfg := {|
  target_names_expr := ["r_wrist_y_joint"];
  stiffness := stiffness ELF3_ACTUATOR_BXI50;
  damping := damping ELF3_ACTUATOR_BXI50;
  effort_limit := effort_limit ELF3_ACTUATOR_BXI50;
  armature := armature ELF3_ACTUATOR_BXI50
|}.

Definition r_wrist_z_joint : BuiltinPositionActuatorCfg := {|
  target_names_expr := ["r_wrist_z_joint"];
  stiffness := stiffness ELF3_ACTUATOR_BXI50;
  damping := damping ELF3_ACTUATOR_BXI50;
  effort_limit := effort_limit ELF3_ACTUATOR_BXI50;
  armature := armature ELF3_ACTUATOR_BXI50
|}.

(** The new joint table, in [joint_name_idx] order. *)
Definition ELF3_ARTICULATION_NEW : EntityArticulationInfoCfg := {|
  actuators :=
    map BuiltinPosition
      [ waist_y_joint;
        waist_x_joint;
        waist_z_joint;
        l_hip_y_joint;
        l_hip_x_joint;
        l_hip_z_joint;
        l_knee_y_joint;
        l_ankle_y_joint;
        l_ankle_x_joint;
        r_hip_y_joint;
        r_hip_x_joint;
        r_hip_z_joint;
        r_knee_y_joint;
        r_ankle_y_joint;
        r_ankle_x_joint;
        l_shoulder_y_joint;
        l_shoulder_x_joint;
        l_shoulder_z_joint;
        l_elbow_y_joint;
        l_wrist_x_joint;
        l_wrist_y_joint;
        l_wrist_z_joint;
        r_shoulder_y_joint;
        r_shoulder_x_joint;
        r_shoulder_z_joint;
        r_elbow_y_joint;
        r_wrist_x_joint;
        r_wrist_y_joint;
        r_wrist_z_joint ];
  soft_joint_pos_limit_factor := 0.9
|}.

(** *** The action-scale table

    [[
    ELF3_ACTION_SCALE: dict[str, float] = {}
    for a in ELF3_ARTICULATION_NEW.actuators:
      assert isinstance(a, BuiltinPositionActuatorCfg)
      e = a.effort_limit
      s = a.stiffness
      names = a.target_names_expr
      assert e is not None
      for n in names:
        ELF3_ACTION_SCALE[n] = 0.25 * e / s
    ]] *)

(** The inner loop, from the table as it stands. *)
Fixpoint action_scale_names (names : list string) (e s : float)
    (scale : dict_of float) : result (dict_of float) :=
  match names with
  | [] => Ok scale
  | n :: rest =>
      v <- PyFloat.truediv (0.25 * e) s ;;
      action_scale_names rest e s (dict_set n v scale)
  end.

(** The outer loop, from the table as it stands. *)
Fixpoint action_scale_loop (acts : list ActuatorCfg) (scale : dict_of float)
    : result (dict_of float) :=
  match acts with
  | [] => Ok scale
  | a :: rest =>
      match a with
      | BuiltinPosition a =>
          let e := effort_limit a in
          let s := stiffness a in
          let names := target_names_expr a in
          match e with
          | None => Raise AssertionError
          | Some e =>
              scale' <- action_scale_names names e s scale ;;
              action_scale_loop rest scale'
          end
      | OtherActuatorCfg _ => Raise AssertionError
      end
  end.

Definition ELF3_ACTION_SCALE_run : result (dict_of float) :=
  action_scale_loop (actuators ELF3_ARTICULATION_NEW) [].

Definition ELF3_ACTION_SCALE : dict_of float :=
  returned ELF3_ACTION_SCALE_run [].

(** ** Configuration objects of the task layer

    [make_velocity_env_cfg] and the classes of the configuration it returns
    ([ManagerBasedRlEnvCfg] and what hangs below it) are not among the
    sources, so a configuration is a tree of Python values: an object is its
    class name and its attributes, a dict its entries in insertion order.
    The tree owns its parts: no object is reachable along two paths. *)

Inductive PyVal : Type :=
| VNone
| VBool (b : bool)
| VInt (z : Z)
| VFloat (f : float)
| VStr (s : string)
| VTuple (items : list PyVal)
| VDict (entries : list (string * PyVal))
| VObj (class_name : string) (attrs : list (string * PyVal))
| VFunc (qualname : string).

(** [o.name] *)
Definition getattr (name : string) (o : PyVal) : result PyVal :=
  match o with
  | VObj _ attrs =>
      match dict_get name attrs with
      | Some v => Ok v
      | None => Raise (AttributeError name)
      end
  | _ => Raise (AttributeError name)
  end.

(** [o.name = v]; the classes are plain dataclasses, which take any
    attribute. *)
Definition setattr (name : string) (v : PyVal) (o : PyVal) : result PyVal :=
  match o with
  | VObj c attrs => Ok (VObj c (dict_set name v attrs))
  | _ => Raise (AttributeError name)
  end.

(** [d[key]] *)
Definition getitem (key : string) (d : PyVal) : result PyVal :=
  match d with
  | VDict entries =>
      match dict_get key entries with
      | Some v => Ok v
      | None => Raise (KeyError key)
      end
  | _ => Raise TypeError
  end.

(** [d[key] = v] *)
Definition setitem (key : string) (v : PyVal) (d : PyVal) : result PyVal :=
  match d with
  | VDict entries => Ok (VDict (dict_set key v entries))
  | _ => Raise TypeError
  end.

(** [del d[key]] *)
Definition delitem (key : string) (d : PyVal) : result PyVal :=
  match d with
  | VDict entries =>
      if dict_mem key entries then Ok (VDict (dict_remove key entries))
      else Raise (KeyError key)
  | _ => Raise TypeError
  end.

(** [d.pop (key, None)], the value popped dropped *)
Definition pop_or_none (key : string) (d : PyVal) : result PyVal :=
  match d with
  | VDict entries => Ok (VDict (dict_remove key entries))
  | _ => Raise (AttributeError "pop")
  end.

(** [key in d] *)
Definition contains (key : string) (d : PyVal) : result bool :=
  match d with
  | VDict entries => Ok (dict_mem key entries)
  | _ => Raise TypeError
  end.

(** The configuration classes.  The dataclasses of mjlab ([EntityCfg],
    [ContactSensorCfg], the manager terms and so on) are not among the
    sources.  Two things about them matter to the code at hand and are taken
    as given: which class derives from which, and the attributes an instance
    has when its constructor is not given them. *)
Class Classes : Type := {
  (* [derives c d]: class [c] is a subclass of class [d], at any distance *)
  derives : string -> string -> bool;
  (* the fields of class [c] that have a default, each with its default *)
  defaults : string -> list (string * PyVal)
}.

(** [issubclass (c, cls)]: a class is a subclass of itself. *)
Definition issubclass {classes : Classes} (c cls : string) : bool :=
  String.eqb c cls || derives c cls.

(** [isinstance (o, cls)]: the class of [o] is [cls] or derives from it. *)
Definition isinstance {classes : Classes} (o : PyVal) (cls : string) : bool :=
  match o with
  | VObj c _ => issubclass c cls
  | _ => false
  end.

(** [cls (name1=v1, ...)]: a fresh instance of the dataclass [cls], its
    fields at their defaults except for those given by keyword. *)
Definition construct {classes : Classes} (cls : string)
    (kwargs : list (string * PyVal)) : PyVal :=
  VObj cls
    (fold_left (fun attrs kv => dict_set (fst kv) (snd kv) attrs) kwargs
       (defaults cls)).

Definition is_none (o : PyVal) : bool :=
  match o with
  | VNone => true
  | _ => false
  end.

(** [assert b] *)
Definition assert (b : bool) : result unit :=
  if b then Ok tt else Raise AssertionError.

(** One step of an access path: [.name] or [[key]]. *)
Inductive step : Type :=
| Attr (name : string)
| Item (key : string).

Definition path : Type := list step.

Definition step_eqb (a b : step) : bool :=
  match a, b with
  | Attr x, Attr y => String.eqb x y
  | Item x, Item y => String.eqb x y
  | _, _ => false
  end.

Definition get_step (s : step) (o : PyVal) : result PyVal :=
  match s with
  | Attr name => getattr name o
  | Item key => getitem key o
  end.

Definition set_step (s : step) (v : PyVal) (o : PyVal) : result PyVal :=
  match s with
  | Attr name => setattr name v o
  | Item key => setitem key v o
  end.

(** The value read along [p]: [cfg.a["k"].b] is
    [get_path [Attr "a"; Item "k"; Attr "b"] cfg]. *)
Fixpoint get_path (p : path) (o : PyVal) : result PyVal :=
  match p with
  | [] => Ok o
  | s :: rest => x <- get_step s o ;; get_path rest x
  end.

(** The tree after the object reached along [p] was mutated by [f]. *)
Fixpoint update_path (p : path) (f : PyVal -> result PyVal) (o : PyVal)
    : result PyVal :=
  match p with
  | [] => f o
  | s :: rest =>
      x <- get_step s o ;;
      x' <- update_path rest f x ;;
      set_step s x' o
  end.

(** The assignment statement [<p>.<last> = v] (or [<p>[last] = v]). *)
Definition assign (p : path) (last : step) (v : PyVal) (o : PyVal)
    : result PyVal :=
  update_path p (set_step last v) o.

(** Two paths part ways: at some position both have a step and the steps
    differ.  Neither is then a prefix of the other. *)
Fixpoint diverge (p q : path) : bool :=
  match p, q with
  | a :: p', b :: q' => if step_eqb a b then diverge p' q' else true
  | _, _ => false
  end.

Section Configurations.

Context {classes : Classes}.

(** ** elf3_constants.py: keyframes, collisions and the robot configuration *)

Definition HOME_KEYFRAME : PyVal :=
  construct "EntityCfg.InitialStateCfg"
    [ ("pos", VTuple [VInt 0; VInt 0; VFloat 1.1]);
      ("joint_pos",
       VDict
         [ (".*_hip_y_joint", VFloat (-0.15));
           (".*_knee_y_joint", VFloat 0.3);
           (".*_ankle_y_joint", VFloat (-0.15));
           (".*_shoulder_y_joint", VFloat 0.2);
           (".*_elbow_y_joint", VFloat 1.28);
           ("l_shoulder_x_joint", VFloat 0.2);
           ("r_shoulder_x_joint", VFloat (-0.2)) ]);
      ("joint_vel", VDict [ (".*", VFloat 0.0) ]) ].

Definition KNEES_BENT_KEYFRAME : PyVal :=
  construct "EntityCfg.InitialStateCfg"
    [ ("pos", VTuple [VInt 0; VInt 0; VFloat 1.1]);
      ("joint_pos",
       VDict
         [ (".*_hip_y_joint", VFloat (-0.3));
           (".*_knee_y_joint", VFloat 0.6);
           (".*_ankle_y_joint", VFloat 0.0);
           (".*_elbow_y_joint", VFloat 0.6);
           ("l_shoulder_y_joint", VFloat 0.2);
           ("l_shoulder_x_joint", VFloat 0.2);
           ("r_shoulder_y_joint", VFloat 0.2);
           ("r_shoulder_x_joint", VFloat (-0.2)) ]);
      ("joint_vel", VDict [ (".*", VFloat 0.0) ]) ].

(** All collisions, self collisions included: condim 1 for those, condim 3
    for the feet. *)
Definition FULL_COLLISION : PyVal :=
  construct "CollisionCfg"
    [ ("geom_names_expr", VTuple [VStr ".*_collision"]);
      ("condim",
       VDict [ ("^(l|r)_foot[1-7]_collision$", VInt 3); (".*_collision", VInt 1) ]);
      ("priority", VDict [ ("^(l|r)_foot[1-7]_collision$", VInt 1) ]);
      ("friction",
       VDict [ ("^(l|r)_foot[1-7]_collision$", VTuple [VFloat 0.6]) ]) ].

(** The typed tables above as configuration values. *)
Definition value_of_number (x : number) : PyVal :=
  match x with
  | Int n => VInt (Sint63.to_Z n)
  | Float f => VFloat f
  end.

Definition value_of_actuator (a : ActuatorCfg) : PyVal :=
  match a with
  | BuiltinPosition a =>
      construct "BuiltinPositionActuatorCfg"
        [ ("target_names_expr", VTuple (map VStr (target_names_expr a)));
          ("stiffness", VFloat (stiffness a));
          ("damping", VFloat (damping a));
          ("effort_limit",
           match effort_limit a with
           | Some e => value_of_number e
           | None => VNone
           end);
          ("armature", VFloat (armature a)) ]
  | OtherActuatorCfg c => construct c []
  end.

Definition value_of_articulation (a : EntityArticulationInfoCfg) : PyVal :=
  construct "EntityArticulationInfoCfg"
    [ ("actuators", VTuple (map value_of_actuator (actuators a)));
      ("soft_joint_pos_limit_factor", VFloat (soft_joint_pos_limit_factor a)) ].

Definition value_of_scale (d : dict_of float) : PyVal :=
  VDict (map (fun kv => (fst kv, VFloat (snd kv))) d).

(** A fresh ELF3 robot configuration. *)
Definition get_elf3_robot_cfg : PyVal :=
  construct "EntityCfg"
    [ ("init_state", KNEES_BENT_KEYFRAME);
      ("collisions", VTuple [FULL_COLLISION]);
      ("spec_fn", VFunc "get_spec");
      ("articulation", value_of_articulation ELF3_ARTICULATION_NEW) ].

(** ** env_cfgs.py *)

(** [str (i)] for a one-digit [i]. *)
Definition str_of_digit (i : nat) : string :=
  String (Ascii.ascii_of_nat (48 + i)) EmptyString.

Definition pose_std (hip_y hip_x hip_z knee ankle_y ankle_x waist_z waist_x
    waist_y shoulder_y shoulder_x shoulder_z elbow wrist : float) : PyVal :=
  VDict
    [ (".*hip_y.*", VFloat hip_y);
      (".*hip_x.*", VFloat hip_x);
      (".*hip_z.*", VFloat hip_z);
      (".*knee.*", VFloat knee);
      (".*ankle_y.*", VFloat ankle_y);
      (".*ankle_x.*", VFloat ankle_x);
      (".*waist_z.*", VFloat waist_z);
      (".*waist_x.*", VFloat waist_x);
      (".*waist_y.*", VFloat waist_y);
      (".*shoulder_y.*", VFloat shoulder_y);
      (".*shoulder_x.*", VFloat shoulder_x);
      (".*shoulder_z.*", VFloat shoulder_z);
      (".*elbow.*", VFloat elbow);
      (".*wrist.*", VFloat wrist) ].

(** [for reward_name in names: cfg.rewards[reward_name].params["asset_cfg"].site_names = site_names] *)
Fixpoint set_reward_site_names (names : list string) (site_names : PyVal)
    (cfg : PyVal) : result PyVal :=
  match names with
  | [] => Ok cfg
  | reward_name :: rest =>
      cfg <- assign
               [Attr "rewards"; Item reward_name; Attr "params"; Item "asset_cfg"]
               (Attr "site_names") site_names cfg ;;
      set_reward_site_names rest site_names cfg
  end.

(** BXI ELF3 rough terrain velocity configuration.  [make_velocity_env_cfg]
    is the configuration the call [make_velocity_env_cfg ()] returns. *)
Definition bxi_elf3_rough_env_cfg (make_velocity_env_cfg : PyVal) (play : bool)
    : result PyVal :=
  let cfg := make_velocity_env_cfg in

  cfg <- assign [Attr "sim"; Attr "mujoco"] (Attr "ccd_iterations") (VInt 500) cfg ;;
  cfg <- assign [Attr "sim"] (Attr "contact_sensor_maxmatch") (VInt 500) cfg ;;
  cfg <- assign [Attr "sim"] (Attr "nconmax") (VInt 45) cfg ;;

  cfg <- assign [Attr "scene"] (Attr "entities")
           (VDict [ ("robot", get_elf3_robot_cfg) ]) cfg ;;

  let site_names := VTuple [VStr "l_foot"; VStr "r_foot"] in
  let geom_names :=
    VTuple
      (flat_map
         (fun side =>
            map (fun i => VStr (side ++ "_foot" ++ str_of_digit i ++ "_collision"))
              (seq 1 7))
         ["l"; "r"]) in

  let feet_ground_cfg :=
    construct "ContactSensorCfg"
      [ ("name", VStr "feet_ground_contact");
        ("primary",
         construct "ContactMatch"
           [ ("mode", VStr "subtree");
             ("pattern", VStr "^(l_ankle_x_link|r_ankle_x_link)$");
             ("entity", VStr "robot") ]);
        ("secondary",
         construct "ContactMatch" [ ("mode", VStr "body"); ("pattern", VStr "terrain") ]);
        ("fields", VTuple [VStr "found"; VStr "force"]);
        ("reduce", VStr "netforce");
        ("num_slots", VInt 1);
        ("track_air_time", VBool true) ] in
  let self_collision_cfg :=
    construct "ContactSensorCfg"
      [ ("name", VStr "self_collision");
        ("primary",
         construct "ContactMatch"
           [ ("mode", VStr "subtree");
             ("pattern", VStr "torso_link");
             ("entity", VStr "robot") ]);
        ("secondary",
         construct "ContactMatch"
           [ ("mode", VStr "subtree");
             ("pattern", VStr "torso_link");
             ("entity", VStr "robot") ]);
        ("fields", VTuple [VStr "found"]);
        ("reduce", VStr "none");
        ("num_slots", VInt 1) ] in
  cfg <- assign [Attr "scene"] (Attr "sensors")
           (VTuple [feet_ground_cfg; self_collision_cfg]) cfg ;;

  terrain <- get_path [Attr "scene"; Attr "terrain"] cfg ;;
  cfg <- (if is_none terrain then Ok cfg
          else
            terrain_generator <- getattr "terrain_generator" terrain ;;
            if is_none terrain_generator then Ok cfg
            else
              assign [Attr "scene"; Attr "terrain"; Attr "terrain_generator"]
                (Attr "curriculum") (VBool true) cfg) ;;

  joint_pos_action <- get_path [Attr "actions"; Item "joint_pos"] cfg ;;
  _ <- assert (isinstance joint_pos_action "JointPositionActionCfg") ;;
  cfg <- assign [Attr "actions"; Item "joint_pos"] (Attr "scale")
           (value_of_scale ELF3_ACTION_SCALE) cfg ;;

  cfg <- assign [Attr "viewer"] (Attr "body_name") (VStr "torso_link") cfg ;;

  twist_cmd <- get_path [Attr "commands"; Item "twist"] cfg ;;
  _ <- assert (isinstance twist_cmd "UniformVelocityCommandCfg") ;;
  cfg <- assign [Attr "commands"; Item "twist"; Attr "viz"] (Attr "z_offset")
           (VFloat 1.15) cfg ;;

  cfg <- assign
           [Attr "observations"; Item "critic"; Attr "terms"; Item "foot_height";
            Attr "params"; Item "asset_cfg"]
           (Attr "site_names") site_names cfg ;;

  cfg <- assign [Attr "events"; Item "foot_friction"; Attr "params"; Item "asset_cfg"]
           (Attr "geom_names") geom_names cfg ;;
  cfg <- assign [Attr "events"; Item "base_com"; Attr "params"; Item "asset_cfg"]
           (Attr "body_names") (VTuple [VStr "torso_link"]) cfg ;;

  cfg <- assign [Attr "rewards"; Item "pose"; Attr "params"] (Item "std_standing")
           (pose_std 0.3 0.05 0.05 0.05 0.35 0.05
              0.05 0.05 0.1
              0.05 0.05 0.05 0.05 0.05) cfg ;;
  cfg <- assign [Attr "rewards"; Item "pose"; Attr "params"] (Item "std_walking")
           (pose_std 0.3 0.15 0.15 0.35 0.25 0.1
              0.2 0.08 0.1
              0.15 0.15 0.1 0.15 0.3) cfg ;;
  cfg <- assign [Attr "rewards"; Item "pose"; Attr "params"] (Item "std_running")
           (pose_std 0.5 0.2 0.2 0.6 0.35 0.15
              0.3 0.08 0.2
              0.5 0.2 0.15 0.35 0.3) cfg ;;

  cfg <- assign [Attr "rewards"; Item "upright"; Attr "params"; Item "asset_cfg"]
           (Attr "body_names") (VTuple [VStr "torso_link"]) cfg ;;
  cfg <- assign [Attr "rewards"; Item "body_ang_vel"; Attr "params"; Item "asset_cfg"]
           (Attr "body_names") (VTuple [VStr "torso_link"]) cfg ;;

  cfg <- set_reward_site_names ["foot_clearance"; "foot_swing_height"; "foot_slip"]
           site_names cfg ;;

  cfg <- assign [Attr "rewards"; Item "body_ang_vel"] (Attr "weight") (VFloat (-0.05)) cfg ;;
  cfg <- assign [Attr "rewards"; Item "angular_momentum"] (Attr "weight")
           (VFloat (-0.02)) cfg ;;
  cfg <- assign [Attr "rewards"; Item "air_time"] (Attr "weight") (VFloat 0.2) cfg ;;

  self_collision_name <- getattr "name" self_collision_cfg ;;
  cfg <- assign [Attr "rewards"] (Item "self_collisions")
           (construct "RewardTermCfg"
              [ ("func", VFunc "mdp.self_collision_cost");
                ("weight", VFloat (-1.0));
                ("params", VDict [ ("sensor_name", self_collision_name) ]) ]) cfg ;;

  (* Apply play mode overrides. *)
  if play then
    (* Effectively infinite episode length. *)
    cfg <- assign [] (Attr "episode_length_s") (VInt 1000000000) cfg ;;

    cfg <- assign [Attr "observations"; Item "policy"] (Attr "enable_corruption")
             (VBool false) cfg ;;
    cfg <- update_path [Attr "events"] (pop_or_none "push_robot") cfg ;;
    cfg <- assign [Attr "events"] (Item "randomize_terrain")
             (construct "EventTermCfg"
                [ ("func", VFunc "envs_mdp.randomize_terrain");
                  ("mode", VStr "reset");
                  ("params", VDict []) ]) cfg ;;

    terrain <- get_path [Attr "scene"; Attr "terrain"] cfg ;;
    if is_none terrain then Ok cfg
    else
      terrain_generator <- getattr "terrain_generator" terrain ;;
      if is_none terrain_generator then Ok cfg
      else
        let gen := [Attr "scene"; Attr "terrain"; Attr "terrain_generator"] in
        cfg <- assign gen (Attr "curriculum") (VBool false) cfg ;;
        cfg <- assign gen (Attr "num_cols") (VInt 5) cfg ;;
        cfg <- assign gen (Attr "num_rows") (VInt 5) cfg ;;
        assign gen (Attr "border_width") (VFloat 10.0) cfg
  else Ok cfg.

(** BXI ELF3 flat terrain velocity configuration. *)
Definition bxi_elf3_flat_env_cfg (make_velocity_env_cfg : PyVal) (play : bool)
    : result PyVal :=
  cfg <- bxi_elf3_rough_env_cfg make_velocity_env_cfg play ;;

  cfg <- assign [Attr "sim"] (Attr "njmax") (VInt 300) cfg ;;
  cfg <- assign [Attr "sim"; Attr "mujoco"] (Attr "ccd_iterations") (VInt 50) cfg ;;
  cfg <- assign [Attr "sim"] (Attr "contact_sensor_maxmatch") (VInt 64) cfg ;;
  cfg <- assign [Attr "sim"] (Attr "nconmax") VNone cfg ;;

  (* Switch to flat terrain. *)
  terrain <- get_path [Attr "scene"; Attr "terrain"] cfg ;;
  _ <- assert (negb (is_none terrain)) ;;
  cfg <- assign [Attr "scene"; Attr "terrain"] (Attr "terrain_type") (VStr "plane") cfg ;;
  cfg <- assign [Attr "scene"; Attr "terrain"] (Attr "terrain_generator") VNone cfg ;;

  (* Disable terrain curriculum. *)
  curriculum <- getattr "curriculum" cfg ;;
  has_levels <- contains "terrain_levels" curriculum ;;
  _ <- assert has_levels ;;
  cfg <- update_path [Attr "curriculum"] (delitem "terrain_levels") cfg ;;

  if play then
    twist_cmd <- get_path [Attr "commands"; Item "twist"] cfg ;;
    _ <- assert (isinstance twist_cmd "UniformVelocityCommandCfg") ;;
    cfg <- assign [Attr "commands"; Item "twist"; Attr "ranges"] (Attr "lin_vel_x")
             (VTuple [VFloat (-1.5); VFloat 2.0]) cfg ;;
    assign [Attr "commands"; Item "twist"; Attr "ranges"] (Attr "ang_vel_z")
      (VTuple [VFloat (-0.7); VFloat 0.7]) cfg
  else Ok cfg.

End Configurations.

(** ** The specification's side

    Definitions that follow the words of the specification, to be compared
    with the module's own values. *)

Module Spec.

(** GainSynthesizer (spec 3 and 4.2): "stiffness = armature × ω²,
    damping = 2 × ζ × armature × ω"; "Precondition: armature > 0,
    natural_freq > 0, damping_ratio ≥ 0.  Error: fails with InvalidSpec
    otherwise."  The module has no such function: it writes the two products
    out for each motor class.  Here the square is the product of the
    frequency with itself. *)
Definition synthesize (armature natural_freq damping_ratio : float)
    : result (float * float) :=
  if (0 <? armature) && (0 <? natural_freq) && (0 <=? damping_ratio) then
    Ok (armature * (natural_freq * natural_freq),
        2 * damping_ratio * armature * natural_freq)
  else Raise InvalidSpec.

(** The same relations between numbers (spec 8: "satisfies stiffness =
    armature·ω² and damping = 2ζ·armature·ω exactly (within floating-point
    tolerance)"): the exact value of each gain lies within a relative 2^-51
    of the exact product of the exact values it is made of.  Two correctly
    rounded operations stay within 2^-52 and a bit. *)
Definition second_order (armature natural_freq damping_ratio stiffness damping : float)
    : Prop :=
  let a := PyFloat.value armature in
  let w := PyFloat.value natural_freq in
  let z := PyFloat.value damping_ratio in
  PyFloat.is_finite stiffness = true /\
  PyFloat.is_finite damping = true /\
  (Qabs (PyFloat.value stiffness - a * (w * w))
   <= (1 # 2 ^ 51) * Qabs (a * (w * w)))%Q /\
  (Qabs (PyFloat.value damping - 2 * z * a * w)
   <= (1 # 2 ^ 51) * Qabs (2 * z * a * w))%Q.

(** The mechanism's joints as the specification lists them: the three waist
    joints and, on each side, hip y/x/z, knee y, ankle y/x, shoulder y/x/z,
    elbow y and wrist x/y/z. *)
Definition mechanism_joint_names : list string :=
  map (fun axis => "waist_" ++ axis ++ "_joint") ["y"; "x"; "z"]
  ++ flat_map
       (fun side =>
          map (fun part => side ++ "_" ++ part ++ "_joint")
            [ "hip_y"; "hip_x"; "hip_z"; "knee_y"; "ankle_y"; "ankle_x";
              "shoulder_y"; "shoulder_x"; "shoulder_z"; "elbow_y";
              "wrist_x"; "wrist_y"; "wrist_z" ])
       ["l"; "r"].

(** [x] is [base] times the whole number [k], up to the rounding of one
    binary64 product: the exact value of [x] lies within a relative
    2^-52 of [k] times the exact value of [base].  A correctly rounded
    product [base * k] of normal numbers is within 2^-53. *)
Definition scaled_by (k : Z) (base x : float) : Prop :=
  PyFloat.is_finite base = true /\ PyFloat.is_finite x = true /\
  (Qabs (PyFloat.value x - inject_Z k * PyFloat.value base)
   <= (1 # 2 ^ 52) * Qabs (inject_Z k * PyFloat.value base))%Q.

(** The gains and armature of one motor of a class. *)
Record single_actuator : Type := mkSingle {
  base_stiffness : float;
  base_damping : float;
  base_armature : float
}.

(** A binding's stiffness, damping and armature are the single-actuator
    values, each scaled by the same actuator count [k]. *)
Definition prescaled (k : Z) (base : single_actuator)
    (binding : BuiltinPositionActuatorCfg) : Prop :=
  (1 <= k)%Z /\
  scaled_by k (base_stiffness base) (stiffness binding) /\
  scaled_by k (base_damping base) (damping binding) /\
  scaled_by k (base_armature base) (armature binding).

End Spec.

Definition SINGLE_BXI50 : Spec.single_actuator :=
  Spec.mkSingle STIFFNESS_BXI50 DAMPING_BXI50
    (Actuator.reflected_inertia ACTUATOR_BXI50).
Definition SINGLE_BXI70 : Spec.single_actuator :=
  Spec.mkSingle STIFFNESS_BXI70 DAMPING_BXI70
    (Actuator.reflected_inertia ACTUATOR_BXI70).
Definition SINGLE_BXI85 : Spec.single_actuator :=
  Spec.mkSingle STIFFNESS_BXI85 DAMPING_BXI85
    (Actuator.reflected_inertia ACTUATOR_BXI85).

Definition motor_classes : list Spec.single_actuator :=
  [ SINGLE_BXI50; SINGLE_BXI70; SINGLE_BXI85 ].

(** The four bindings of the parallel-linkage joints. *)
Definition parallel_linkage_bindings : list BuiltinPositionActuatorCfg :=
  [ ELF3_ACTUATOR_WAIST_Y;
    ELF3_ACTUATOR_WAIST_X;
    ELF3_ACTUATOR_ANKLE_Y;
    ELF3_ACTUATOR_ANKLE_X ].

(** ** Reading the action-scale loop as a list of writes *)

(** The names the loop writes, in the order it writes them. *)
Definition target_names (acts : list ActuatorCfg) : list string :=
  flat_map
    (fun a =>
       match a with
       | BuiltinPosition a => target_names_expr a
       | OtherActuatorCfg _ => []
       end)
    acts.

(** The assignments [ELF3_ACTION_SCALE[n] = 0.25 * e / s] of a run that
    raises nowhere, in order. *)
Definition writes (acts : list ActuatorCfg) : list (string * float) :=
  flat_map
    (fun a =>
       match a with
       | BuiltinPosition a =>
           match effort_limit a with
           | Some e => map (fun n => (n, 0.25 * e / stiffness a)) (target_names_expr a)
           | None => []
           end
       | OtherActuatorCfg _ => []
       end)
    acts.

Definition apply_writes {V : Type} (ws : list (string * V)) (d : dict_of V)
    : dict_of V :=
  fold_left (fun d kv => dict_set (fst kv) (snd kv) d) ws d.

(** The value the last write to [k] left, if any write went to [k]. *)
Fixpoint last_write {V : Type} (k : string) (ws : list (string * V)) : option V :=
  match ws with
  | [] => None
  | (k', v) :: rest =>
      match last_write k rest with
      | Some v' => Some v'
      | None => if String.eqb k k' then Some v else None
      end
  end.

(** A key list with [k] added at the end unless it is there already. *)
Definition add_key (ks : list string) (k : string) : list string :=
  if existsb (String.eqb k) ks then ks else (ks ++ [k])%list.

(** The distinct names of [names], each at its first occurrence. *)
Definition first_occurrences (names : list string) : list string :=
  fold_left add_key names [].

(** What the loop needs of an actuator to pass it without raising. *)
Definition loop_accepts (a : ActuatorCfg) : Prop :=
  exists c e,
    a = BuiltinPosition c /\ effort_limit c = Some e /\ (stiffness c =? 0) = false.

(** ** What kind of value stands at a path *)

(** The kind of a value: its type and, for an object, its class. *)
Inductive tag : Type :=
| TNone
| TBool
| TInt
| TFloat
| TStr
| TTuple
| TDict
| TObj (class_name : string)
| TFunc.

Definition tag_of (o : PyVal) : tag :=
  match o with
  | VNone => TNone
  | VBool _ => TBool
  | VInt _ => TInt
  | VFloat _ => TFloat
  | VStr _ => TStr
  | VTuple _ => TTuple
  | VDict _ => TDict
  | VObj c _ => TObj c
  | VFunc _ => TFunc
  end.

Definition tag_at (q : path) (o : PyVal) : result tag :=
  x <- get_path q o ;; Ok (tag_of x).

(** An instance of [cls], or of a class that derives from it, stands at
    [q]. *)
Definition instance_at {classes : Classes} (q : path) (cls : string) (o : PyVal)
    : Prop :=
  exists c, tag_at q o = Ok (TObj c) /\ issubclass c cls = true.

(** [q] is [p] or lies below it. *)
Fixpoint is_prefix (p q : path) : bool :=
  match p, q with
  | [], _ => true
  | a :: p', b :: q' => step_eqb a b && is_prefix p' q'
  | _ :: _, [] => false
  end.

(** A mutation of one object that touches nothing but what stands under
    step [s]: the object keeps its kind, and every other step from it reads
    as before. *)
Definition local_update (s : step) (f : PyVal -> result PyVal) : Prop :=
  forall x x',
    f x = Ok x' ->
    tag_of x' = tag_of x /\
    forall t, step_eqb s t = false -> get_step t x' = get_step t x.

(** ** The paths [bxi_elf3_flat_env_cfg] writes *)

Definition flat_changed_paths (play : bool) : list path :=
  [ [Attr "sim"; Attr "njmax"];
    [Attr "sim"; Attr "mujoco"; Attr "ccd_iterations"];
    [Attr "sim"; Attr "contact_sensor_maxmatch"];
    [Attr "sim"; Attr "nconmax"];
    [Attr "scene"; Attr "terrain"; Attr "terrain_type"];
    [Attr "scene"; Attr "terrain"; Attr "terrain_generator"];
    [Attr "curriculum"; Item "terrain_levels"] ]
  ++ (if play then
        [ [Attr "commands"; Item "twist"; Attr "ranges"; Attr "lin_vel_x"];
          [Attr "commands"; Item "twist"; Attr "ranges"; Attr "ang_vel_z"] ]
      else [])%list.

(** A path that no write of [bxi_elf3_flat_env_cfg] can reach: it parts ways
    with every written path. *)
Definition untouched_by_flat (play : bool) (q : path) : Prop :=
  forall p, In p (flat_changed_paths play) -> diverge p q = true.

(** What [bxi_elf3_flat_env_cfg] asserts or reads of the rough configuration
    that [bxi_elf3_rough_env_cfg] has not itself secured: a terrain that is
    not [None], a [curriculum] dict with a "terrain_levels" entry and, in
    play mode, a [ranges] object in the twist command. *)
Definition flat_ready (play : bool) (cfg : PyVal) : Prop :=
  (exists terrain, get_path [Attr "scene"; Attr "terrain"] cfg = Ok terrain
                   /\ is_none terrain = false) /\
  (exists entries, getattr "curriculum" cfg = Ok (VDict entries)
                   /\ dict_mem "terrain_levels" entries = true) /\
  (play = true ->
   exists c, tag_at [Attr "commands"; Item "twist"; Attr "ranges"] cfg = Ok (TObj c)).

(** Everything [bxi_elf3_flat_env_cfg] relies on in the configuration it
    gets from [bxi_elf3_rough_env_cfg]. *)
Definition flat_needs {classes : Classes} (play : bool) (cfg : PyVal) : Prop :=
  (exists c, tag_at [Attr "sim"] cfg = Ok (TObj c)) /\
  (exists c, tag_at [Attr "sim"; Attr "mujoco"] cfg = Ok (TObj c)) /\
  (exists c, tag_at [Attr "scene"; Attr "terrain"] cfg = Ok (TObj c)) /\
  (exists entries, getattr "curriculum" cfg = Ok (VDict entries)
                   /\ dict_mem "terrain_levels" entries = true) /\
  (play = true ->
   instance_at [Attr "commands"; Item "twist"] "UniformVelocityCommandCfg" cfg /\
   exists c, tag_at [Attr "commands"; Item "twist"; Attr "ranges"] cfg = Ok (TObj c)).

(** The values [bxi_elf3_flat_env_cfg] leaves at the paths it writes, in a
    result [cfgF] made from the rough configuration [cfgR]. *)
Definition flat_written (play : bool) (cfgR cfgF : PyVal) : Prop :=
  get_path [Attr "sim"; Attr "njmax"] cfgF = Ok (VInt 300) /\
  get_path [Attr "sim"; Attr "mujoco"; Attr "ccd_iterations"] cfgF = Ok (VInt 50) /\
  get_path [Attr "sim"; Attr "contact_sensor_maxmatch"] cfgF = Ok (VInt 64) /\
  get_path [Attr "sim"; Attr "nconmax"] cfgF = Ok VNone /\
  get_path [Attr "scene"; Attr "terrain"; Attr "terrain_type"] cfgF = Ok (VStr "plane") /\
  get_path [Attr "scene"; Attr "terrain"; Attr "terrain_generator"] cfgF = Ok VNone /\
  (exists entries,
     get_path [Attr "curriculum"] cfgR = Ok (VDict entries) /\
     get_path [Attr "curriculum"] cfgF
     = Ok (VDict (dict_remove "terrain_levels" entries))) /\
  (play = true ->
   get_path [Attr "commands"; Item "twist"; Attr "ranges"; Attr "lin_vel_x"] cfgF
   = Ok (VTuple [VFloat (-1.5); VFloat 2.0]) /\
   get_path [Attr "commands"; Item "twist"; Attr "ranges"; Attr "ang_vel_z"] cfgF
   = Ok (VTuple [VFloat (-0.7); VFloat 0.7])).

(** [cfgF] is [cfgR] changed in nothing but the paths
    [bxi_elf3_flat_env_cfg] writes: every path that parts ways with the
    written ones reads the same value, and every path that is not at or
    below a written one holds a value of the same kind and class. *)
Definition flat_frame (play : bool) (cfgR cfgF : PyVal) : Prop :=
  (forall q, untouched_by_flat play q -> get_path q cfgF = get_path q cfgR) /\
  (forall q,
     (forall p, In p (flat_changed_paths play) -> is_prefix p q = false) ->
     tag_at q cfgF = tag_at q cfgR).

(** ** A small configuration to run the two functions on

    The source of [make_velocity_env_cfg] is not at hand; this is a
    configuration with just the objects, dict entries and attributes that
    [bxi_elf3_rough_env_cfg] and [bxi_elf3_flat_env_cfg] read, under class
    names of its own where the sources name none. *)

(** The classes of the example: a twist command class of the task's own
    that derives from [UniformVelocityCommandCfg], and a default rotation
    for an initial state. *)
Definition example_classes : Classes := {|
  derives c d :=
    String.eqb c "Elf3VelocityCommandCfg" && String.eqb d "UniformVelocityCommandCfg";
  defaults c :=
    if String.eqb c "EntityCfg.InitialStateCfg" then
      [ ("rot", VTuple [VFloat 1.0; VFloat 0.0; VFloat 0.0; VFloat 0.0]) ]
    else []
|}.

Definition example_term (params : list (string * PyVal)) : PyVal :=
  VObj "TermCfg" [ ("params", VDict params) ].

Definition example_asset_cfg : PyVal :=
  VObj "SceneEntityCfg" [ ("name", VStr "robot") ].

Definition example_terrain : PyVal :=
  VObj "TerrainImporterCfg"
    [ ("terrain_type", VStr "generator");
      ("terrain_generator",
       VObj "TerrainGeneratorCfg"
         [ ("curriculum", VBool false); ("num_cols", VInt 20);
           ("num_rows", VInt 10); ("border_width", VFloat 20.0) ]) ].

Definition example_velocity_env_cfg (terrain : PyVal) : PyVal :=
  VObj "ManagerBasedRlEnvCfg"
    [ ("sim",
       VObj "SimulationCfg"
         [ ("mujoco", VObj "MujocoCfg" [ ("ccd_iterations", VInt 50) ]);
           ("nconmax", VInt 35);
           ("njmax", VInt 1500) ]);
      ("scene", VObj "SceneCfg" [ ("terrain", terrain); ("num_envs", VInt 1) ]);
      ("actions",
       VDict [ ("joint_pos", VObj "JointPositionActionCfg" [ ("scale", VFloat 0.5) ]) ]);
      ("viewer", VObj "ViewerConfig" [ ("body_name", VStr "") ]);
      ("commands",
       VDict
         [ ("twist",
            VObj "UniformVelocityCommandCfg"
              [ ("viz", VObj "VizCfg" [ ("z_offset", VFloat 0.2) ]);
                ("ranges",
                 VObj "Ranges"
                   [ ("lin_vel_x", VTuple [VFloat (-1.0); VFloat 1.0]);
                     ("lin_vel_y", VTuple [VFloat (-1.0); VFloat 1.0]);
                     ("ang_vel_z", VTuple [VFloat (-0.5); VFloat 0.5]) ]) ]) ]);
      ("observations",
       VDict
         [ ("policy", VObj "ObservationGroupCfg" [ ("enable_corruption", VBool true) ]);
           ("critic",
            VObj "ObservationGroupCfg"
              [ ("terms",
                 VDict [ ("foot_height", example_term [ ("asset_cfg", example_asset_cfg) ]) ]) ]) ]);
      ("events",
       VDict
         [ ("foot_friction", example_term [ ("asset_cfg", example_asset_cfg) ]);
           ("base_com", example_term [ ("asset_cfg", example_asset_cfg) ]);
           ("push_robot", example_term []) ]);
      ("rewards",
       VDict
         [ ("pose", example_term []);
           ("upright", example_term [ ("asset_cfg", example_asset_cfg) ]);
           ("body_ang_vel", example_term [ ("asset_cfg", example_asset_cfg) ]);
           ("foot_clearance", example_term [ ("asset_cfg", example_asset_cfg) ]);
           ("foot_swing_height", example_term [ ("asset_cfg", example_asset_cfg) ]);
           ("foot_slip", example_term [ ("asset_cfg", example_asset_cfg) ]);
           ("angular_momentum", example_term []);
           ("air_time", example_term []) ]);
      ("curriculum",
       VDict
         [ ("terrain_levels", example_term []);
           ("command_vel", example_term []) ]);
      ("episode_length_s", VFloat 20.0) ].

(** The example with its twist command an instance of the derived class. *)
Definition example_derived_twist_cfg : PyVal :=
  returned
    (update_path [Attr "commands"; Item "twist"]
       (fun twist =>
          match twist with
          | VObj _ attrs => Ok (VObj "Elf3VelocityCommandCfg" attrs)
          | _ => Raise TypeError
          end)
       (example_velocity_env_cfg example_terrain))
    VNone.

(** What [bxi_elf3_rough_env_cfg] makes of the example in play mode. *)
Definition example_rough_play : PyVal :=
  returned
    (bxi_elf3_rough_env_cfg (classes := example_classes)
       (example_velocity_env_cfg example_terrain) true)
    VNone.

(** ** Checks that compute *)

(** No string of the list occurs twice. *)
Fixpoint distinct (l : list string) : bool :=
  match l with
  | [] => true
  | x :: rest => negb (existsb (String.eqb x) rest) && distinct rest
  end.

(** Every string of [l1] occurs in [l2]. *)
Definition all_in (l1 l2 : list string) : bool :=
  forallb (fun x => existsb (String.eqb x) l2) l1.

Definition loop_acceptsb (a : ActuatorCfg) : bool :=
  match a with
  | BuiltinPosition c =>
      match effort_limit c with
      | Some _ => negb (stiffness c =? 0)
      | None => false
      end
  | OtherActuatorCfg _ => false
  end.

(** A configured actuator with a strictly positive effort limit and a
    strictly positive stiffness. *)
Definition positive_actuator (a : ActuatorCfg) : bool :=
  match a with
  | BuiltinPosition c =>
      match effort_limit c with
      | Some e => (0 <? e) && (0 <? stiffness c)
      | None => false
      end
  | OtherActuatorCfg _ => false
  end.

(** ** When the action-scale loop passes an actuator *)

(** The loop passes an actuator without raising: it is a position actuator
    with an effort limit, and its stiffness is not zero unless it targets no
    name at all (the division is made once per name). *)
Definition loop_passes (a : ActuatorCfg) : Prop :=
  exists c e,
    a = BuiltinPosition c /\ effort_limit c = Some e /\
    (target_names_expr c = [] \/ (stiffness c =? 0) = false).

(** One of the two assertions of the loop fails on the actuator. *)
Definition fails_assertion (a : ActuatorCfg) : Prop :=
  match a with
  | BuiltinPosition c => effort_limit c = None
  | OtherActuatorCfg _ => True
  end.

(** Both assertions pass and the first division is by zero. *)
Definition divides_by_zero (a : ActuatorCfg) : Prop :=
  exists c e,
    a = BuiltinPosition c /\ effort_limit c = Some e /\
    target_names_expr c <> [] /\ (stiffness c =? 0) = true.

(** ** What the two configuration functions need and write *)

(** An object of some class stands at [q]. *)
Definition obj_at (q : path) (o : PyVal) : Prop :=
  exists c, tag_at q o = Ok (TObj c).

Definition terrain_path : path := [Attr "scene"; Attr "terrain"].
Definition generator_path : path :=
  [Attr "scene"; Attr "terrain"; Attr "terrain_generator"].

Definition asset_cfg_of (group term : string) : path :=
  [Attr group; Item term; Attr "params"; Item "asset_cfg"].

(** What [bxi_elf3_rough_env_cfg] reads, asserts and assigns into of the
    configuration it starts from: the objects and dicts its statements
    navigate, an instance of each of the two asserted classes (or of a class
    that derives from it), and a terrain that is [None] or has a
    [terrain_generator] that is [None] or an object. *)
Definition rough_ready {classes : Classes} (play : bool) (cfg : PyVal) : Prop :=
  obj_at [Attr "sim"; Attr "mujoco"] cfg /\
  obj_at [Attr "scene"] cfg /\
  (tag_at terrain_path cfg = Ok TNone \/
   tag_at generator_path cfg = Ok TNone \/
   obj_at generator_path cfg) /\
  instance_at [Attr "actions"; Item "joint_pos"] "JointPositionActionCfg" cfg /\
  obj_at [Attr "viewer"] cfg /\
  instance_at [Attr "commands"; Item "twist"] "UniformVelocityCommandCfg" cfg /\
  obj_at [Attr "commands"; Item "twist"; Attr "viz"] cfg /\
  obj_at [Attr "observations"; Item "critic"; Attr "terms"; Item "foot_height";
          Attr "params"; Item "asset_cfg"] cfg /\
  obj_at (asset_cfg_of "events" "foot_friction") cfg /\
  obj_at (asset_cfg_of "events" "base_com") cfg /\
  tag_at [Attr "rewards"; Item "pose"; Attr "params"] cfg = Ok TDict /\
  obj_at (asset_cfg_of "rewards" "upright") cfg /\
  obj_at (asset_cfg_of "rewards" "body_ang_vel") cfg /\
  obj_at (asset_cfg_of "rewards" "foot_clearance") cfg /\
  obj_at (asset_cfg_of "rewards" "foot_swing_height") cfg /\
  obj_at (asset_cfg_of "rewards" "foot_slip") cfg /\
  obj_at [Attr "rewards"; Item "angular_momentum"] cfg /\
  obj_at [Attr "rewards"; Item "air_time"] cfg /\
  (play = true -> obj_at [Attr "observations"; Item "policy"] cfg).

(** [b] is [a] changed in nothing but the paths [ps]: every path that parts
    ways with all of them reads the same value, and every path that is not
    at or below one of them holds a value of the same kind and class. *)
Definition changed_only_at (ps : list path) (a b : PyVal) : Prop :=
  (forall q, (forall p, In p ps -> diverge p q = true) ->
             get_path q b = get_path q a) /\
  (forall q, (forall p, In p ps -> is_prefix p q = false) ->
             tag_at q b = tag_at q a).

(** The values [bxi_elf3_rough_env_cfg] builds before it assigns them. *)
Definition site_names : PyVal := VTuple [VStr "l_foot"; VStr "r_foot"].

Definition geom_names : PyVal :=
  VTuple
    (flat_map
       (fun side =>
          map (fun i => VStr (side ++ "_foot" ++ str_of_digit i ++ "_collision"))
            (seq 1 7))
       ["l"; "r"]).

Definition feet_ground_cfg {classes : Classes} : PyVal :=
  construct "ContactSensorCfg"
    [ ("name", VStr "feet_ground_contact");
      ("primary",
       construct "ContactMatch"
         [ ("mode", VStr "subtree");
           ("pattern", VStr "^(l_ankle_x_link|r_ankle_x_link)$");
           ("entity", VStr "robot") ]);
      ("secondary",
       construct "ContactMatch" [ ("mode", VStr "body"); ("pattern", VStr "terrain") ]);
      ("fields", VTuple [VStr "found"; VStr "force"]);
      ("reduce", VStr "netforce");
      ("num_slots", VInt 1);
      ("track_air_time", VBool true) ].

Definition self_collision_cfg {classes : Classes} : PyVal :=
  construct "ContactSensorCfg"
    [ ("name", VStr "self_collision");
      ("primary",
       construct "ContactMatch"
         [ ("mode", VStr "subtree");
           ("pattern", VStr "torso_link");
           ("entity", VStr "robot") ]);
      ("secondary",
       construct "ContactMatch"
         [ ("mode", VStr "subtree");
           ("pattern", VStr "torso_link");
           ("entity", VStr "robot") ]);
      ("fields", VTuple [VStr "found"]);
      ("reduce", VStr "none");
      ("num_slots", VInt 1) ].

(** The assignments of [bxi_elf3_rough_env_cfg] that no guard stands
    before, as target path and value, in the order of the source. *)
Definition rough_assignments {classes : Classes} (play : bool)
    : list (path * PyVal) :=
  [ ([Attr "sim"; Attr "mujoco"; Attr "ccd_iterations"], VInt 500);
    ([Attr "sim"; Attr "contact_sensor_maxmatch"], VInt 500);
    ([Attr "sim"; Attr "nconmax"], VInt 45);
    ([Attr "scene"; Attr "entities"], VDict [ ("robot", get_elf3_robot_cfg) ]);
    ([Attr "scene"; Attr "sensors"], VTuple [feet_ground_cfg; self_collision_cfg]);
    ([Attr "actions"; Item "joint_pos"; Attr "scale"], value_of_scale ELF3_ACTION_SCALE);
    ([Attr "viewer"; Attr "body_name"], VStr "torso_link");
    ([Attr "commands"; Item "twist"; Attr "viz"; Attr "z_offset"], VFloat 1.15);
    ([Attr "observations"; Item "critic"; Attr "terms"; Item "foot_height";
      Attr "params"; Item "asset_cfg"; Attr "site_names"], site_names);
    ((asset_cfg_of "events" "foot_friction" ++ [Attr "geom_names"])%list, geom_names);
    ((asset_cfg_of "events" "base_com" ++ [Attr "body_names"])%list,
     VTuple [VStr "torso_link"]);
    ([Attr "rewards"; Item "pose"; Attr "params"; Item "std_standing"],
     pose_std 0.3 0.05 0.05 0.05 0.35 0.05 0.05 0.05 0.1 0.05 0.05 0.05 0.05 0.05);
    ([Attr "rewards"; Item "pose"; Attr "params"; Item "std_walking"],
     pose_std 0.3 0.15 0.15 0.35 0.25 0.1 0.2 0.08 0.1 0.15 0.15 0.1 0.15 0.3);
    ([Attr "rewards"; Item "pose"; Attr "params"; Item "std_running"],
     pose_std 0.5 0.2 0.2 0.6 0.35 0.15 0.3 0.08 0.2 0.5 0.2 0.15 0.35 0.3);
    ((asset_cfg_of "rewards" "upright" ++ [Attr "body_names"])%list,
     VTuple [VStr "torso_link"]);
    ((asset_cfg_of "rewards" "body_ang_vel" ++ [Attr "body_names"])%list,
     VTuple [VStr "torso_link"]);
    ((asset_cfg_of "rewards" "foot_clearance" ++ [Attr "site_names"])%list, site_names);
    ((asset_cfg_of "rewards" "foot_swing_height" ++ [Attr "site_names"])%list, site_names);
    ((asset_cfg_of "rewards" "foot_slip" ++ [Attr "site_names"])%list, site_names);
    ([Attr "rewards"; Item "body_ang_vel"; Attr "weight"], VFloat (-0.05));
    ([Attr "rewards"; Item "angular_momentum"; Attr "weight"], VFloat (-0.02));
    ([Attr "rewards"; Item "air_time"; Attr "weight"], VFloat 0.2);
    ([Attr "rewards"; Item "self_collisions"],
     construct "RewardTermCfg"
       [ ("func", VFunc "mdp.self_collision_cost");
         ("weight", VFloat (-1.0));
         ("params", VDict [ ("sensor_name", VStr "self_collision") ]) ]) ]
  ++ (if play then
        [ ([Attr "episode_length_s"], VInt 1000000000);
          ([Attr "observations"; Item "policy"; Attr "enable_corruption"], VBool false);
          ([Attr "events"; Item "randomize_terrain"],
           construct "EventTermCfg"
             [ ("func", VFunc "envs_mdp.randomize_terrain");
               ("mode", VStr "reset");
               ("params", VDict []) ]) ]
      else [])%list.

(** The assignments behind the guard on the terrain generator: the
    curriculum flag, switched on and, in play mode, off again, and the
    play-mode grid. *)
Definition rough_generator_assignments (play : bool) : list (path * PyVal) :=
  ((generator_path ++ [Attr "curriculum"])%list, VBool (negb play))
  :: (if play then
        [ ((generator_path ++ [Attr "num_cols"])%list, VInt 5);
          ((generator_path ++ [Attr "num_rows"])%list, VInt 5);
          ((generator_path ++ [Attr "border_width"])%list, VFloat 10.0) ]
      else [])%list.

(** Every path [bxi_elf3_rough_env_cfg] may write or delete. *)
Definition rough_changed_paths {classes : Classes} (play : bool) : list path :=
  (map fst (rough_assignments play)
   ++ map fst (rough_generator_assignments play)
   ++ (if play then [ [Attr "events"; Item "push_robot"] ] else []))%list.

(** The assigned values are in the returned configuration, those behind the
    guard when the configuration it started from has a generator object. *)
Definition rough_written {classes : Classes} (play : bool) (base cfgR : PyVal)
    : Prop :=
  Forall (fun wv => get_path (fst wv) cfgR = Ok (snd wv)) (rough_assignments play) /\
  (obj_at generator_path base ->
   Forall (fun wv => get_path (fst wv) cfgR = Ok (snd wv))
     (rough_generator_assignments play)).

(** The example configuration without its "terrain_levels" curriculum
    entry. *)
Definition example_without_levels : PyVal :=
  returned
    (update_path [Attr "curriculum"] (delitem "terrain_levels")
       (example_velocity_env_cfg example_terrain))
    VNone.

(** Every path of the list parts ways with [q]. *)
Definition all_diverge (ps : list path) (q : path) : bool :=
  forallb (fun p => diverge p q) ps.

(** No path of the list is [q] or a prefix of it. *)
Definition none_above (ps : list path) (q : path) : bool :=
  forallb (fun p => negb (is_prefix p q)) ps.


(** ** The terms of a manager dict *)




(** ** Play mode against training *)

(** The play-mode overrides of [bxi_elf3_rough_env_cfg], the body of its
    [if play:], as a function of the configuration built so far. *)
Definition play_overrides {classes : Classes} (cfg : PyVal) : result PyVal :=
  (* Effectively infinite episode length. *)
  cfg <- assign [] (Attr "episode_length_s") (VInt 1000000000) cfg ;;

  cfg <- assign [Attr "observations"; Item "policy"] (Attr "enable_corruption")
           (VBool false) cfg ;;
  cfg <- update_path [Attr "events"] (pop_or_none "push_robot") cfg ;;
  cfg <- assign [Attr "events"] (Item "randomize_terrain")
           (construct "EventTermCfg"
              [ ("func", VFunc "envs_mdp.randomize_terrain");
                ("mode", VStr "reset");
                ("params", VDict []) ]) cfg ;;

  terrain <- get_path [Attr "scene"; Attr "terrain"] cfg ;;
  if is_none terrain then Ok cfg
  else
    terrain_generator <- getattr "terrain_generator" terrain ;;
    if is_none terrain_generator then Ok cfg
    else
      let gen := [Attr "scene"; Attr "terrain"; Attr "terrain_generator"] in
      cfg <- assign gen (Attr "curriculum") (VBool false) cfg ;;
      cfg <- assign gen (Attr "num_cols") (VInt 5) cfg ;;
      cfg <- assign gen (Attr "num_rows") (VInt 5) cfg ;;
      assign gen (Attr "border_width") (VFloat 10.0) cfg.

(** The paths the play-mode overrides write or pop. *)
Definition play_changed_paths : list path :=
  [ [Attr "episode_length_s"];
    [Attr "observations"; Item "policy"; Attr "enable_corruption"];
    [Attr "events"; Item "push_robot"];
    [Attr "events"; Item "randomize_terrain"];
    (generator_path ++ [Attr "curriculum"])%list;
    (generator_path ++ [Attr "num_cols"])%list;
    (generator_path ++ [Attr "num_rows"])%list;
    (generator_path ++ [Attr "border_width"])%list ].

(** ** Rational bounds on pi

    Partial sums of the series of [pi / 4 = 2 atan (1/3) + atan (1/7)], to
    compare [NATURAL_FREQ] with [20 pi]. *)

Fixpoint qpow (q : Q) (n : nat) : Q :=
  match n with
  | O => 1%Q
  | S m => (q * qpow q m)%Q
  end.

(** The term of rank [n] of the series of [atan x]. *)
Definition atan_term (x : Q) (n : nat) : Q :=
  (qpow x (2 * n + 1) / inject_Z (Z.of_nat (2 * n + 1)))%Q.

Definition machin_term (n : nat) : Q :=
  (qpow (-1) n * (2 * atan_term (1 # 3) n + atan_term (1 # 7) n))%Q.

Fixpoint machin_sum (n : nat) : Q :=
  match n with
  | O => machin_term 0
  | S m => (machin_sum m + machin_term (S m))%Q
  end.

(** ** The two functions on the classes of the example *)

Abbreviation example_rough_env_cfg :=
  (bxi_elf3_rough_env_cfg (classes := example_classes)).
Abbreviation example_flat_env_cfg :=
  (bxi_elf3_flat_env_cfg (classes := example_classes)).
Abbreviation example_rough_ready := (rough_ready (classes := example_classes)).
Abbreviation example_rough_written := (rough_written (classes := example_classes)).
Abbreviation example_rough_changed_paths :=
  (rough_changed_paths (classes := example_classes)).

(** * Properties *)

(** ** Dicts *)

Section DictFacts.

Context {V : Type}.
Implicit Types (d : dict_of V) (k : string) (v : V).

Lemma dict_get_set_same k v d : dict_get k (dict_set k v d) = Some v.
Proof.
  induction d as [|[k' v'] d IH]; simpl.
  - now rewrite String.eqb_refl.
  - destruct (String.eqb k k') eqn:E; simpl; rewrite E; [reflexivity | exact IH].
Qed.

Lemma dict_get_set_other k k' v d :
  k <> k' -> dict_get k (dict_set k' v d) = dict_get k d.
Proof.
  intros Hne. induction d as [|[k0 v0] d IH]; simpl.
  - apply String.eqb_neq in Hne. now rewrite Hne.
  - destruct (String.eqb k' k0) eqn:E; simpl.
    + apply String.eqb_eq in E. subst k0.
      apply String.eqb_neq in Hne. now rewrite Hne.
    + now rewrite IH.
Qed.

Lemma dict_get_In k v d : dict_get k d = Some v -> In (k, v) d.
Proof.
  induction d as [|[k' v'] d IH]; simpl; [discriminate|].
  destruct (String.eqb k k') eqn:E.
  - apply String.eqb_eq in E. intros [= ->]. subst. now left.
  - intros H. right. now apply IH.
Qed.

Lemma dict_get_None_iff k d : dict_get k d = None <-> ~ In k (dict_keys d).
Proof.
  induction d as [|[k' v'] d IH]; simpl.
  - tauto.
  - destruct (String.eqb k k') eqn:E.
    + apply String.eqb_eq in E. subst. split; [discriminate | intros H; exfalso; auto].
    + apply String.eqb_neq in E. rewrite IH. split.
      * intros H [H'|H']; [congruence | auto].
      * intros H H'. apply H. now right.
Qed.

Lemma existsb_eqb_In k (ks : list string) :
  existsb (String.eqb k) ks = true <-> In k ks.
Proof.
  rewrite existsb_exists. split.
  - intros [x [Hin Heq]]. apply String.eqb_eq in Heq. now subst.
  - intros H. exists k. split; [exact H | apply String.eqb_refl].
Qed.

Lemma dict_keys_set k v d : dict_keys (dict_set k v d) = add_key (dict_keys d) k.
Proof.
  unfold add_key. induction d as [|[k' v'] d IH]; simpl; [reflexivity|].
  destruct (String.eqb k k') eqn:E; simpl; [reflexivity|].
  rewrite IH. now destruct (existsb (String.eqb k) (dict_keys d)).
Qed.

Lemma add_key_present k (ks : list string) : In k ks -> add_key ks k = ks.
Proof.
  intros H. unfold add_key. apply existsb_eqb_In in H. now rewrite H.
Qed.

Lemma add_key_In k k' (ks : list string) :
  In k (add_key ks k') <-> In k ks \/ k = k'.
Proof.
  unfold add_key. destruct (existsb (String.eqb k') ks) eqn:E.
  - apply existsb_eqb_In in E. split; [tauto | intros [H| ->]; assumption].
  - rewrite in_app_iff. simpl. split; intros [H|H]; auto.
    + destruct H as [H|[]]; auto.
Qed.

Lemma add_key_NoDup k (ks : list string) : NoDup ks -> NoDup (add_key ks k).
Proof.
  intros H. unfold add_key. destruct (existsb (String.eqb k) ks) eqn:E; [exact H|].
  assert (~ In k ks) as Hn.
  { intros Hin. apply existsb_eqb_In in Hin. congruence. }
  clear E. induction H as [|x l Hx Hl IH]; simpl.
  - constructor; [intros [] | constructor].
  - constructor.
    + rewrite in_app_iff. simpl. intros [H'|[H'|[]]]; [auto | subst; apply Hn; now left].
    + apply IH. intros H'. apply Hn. now right.
Qed.

(** Two dicts with the same keys in the same order and the same value under
    every key are the same dict. *)
Lemma dict_ext d1 d2 :
  NoDup (dict_keys d1) ->
  dict_keys d1 = dict_keys d2 ->
  (forall k, dict_get k d1 = dict_get k d2) ->
  d1 = d2.
Proof.
  revert d2. induction d1 as [|[k1 v1] d1 IH]; intros [|[k2 v2] d2] Hnd Hk Hg;
    simpl in *; try discriminate; [reflexivity|].
  injection Hk as -> Hk.
  inversion Hnd as [|? ? Hnotin Hnd']; subst.
  assert (v1 = v2) as ->.
  { specialize (Hg k2). rewrite String.eqb_refl in Hg. congruence. }
  f_equal. apply IH; [assumption | assumption |].
  intros k. destruct (String.eqb k k2) eqn:E.
  - apply String.eqb_eq in E. subst k.
    transitivity (@None V); [|symmetry]; apply dict_get_None_iff; congruence.
  - specialize (Hg k). now rewrite E in Hg.
Qed.

(** *** A run of writes *)

Lemma apply_writes_app (ws1 ws2 : list (string * V)) d :
  apply_writes (ws1 ++ ws2) d = apply_writes ws2 (apply_writes ws1 d).
Proof. unfold apply_writes. apply fold_left_app. Qed.

(** Last write wins. *)
Lemma dict_get_apply_writes k (ws : list (string * V)) d :
  dict_get k (apply_writes ws d)
  = match last_write k ws with
    | Some v => Some v
    | None => dict_get k d
    end.
Proof.
  revert d. induction ws as [|[k' v'] ws IH]; intros d; simpl; [reflexivity|].
  rewrite IH. destruct (last_write k ws); [reflexivity|].
  destruct (String.eqb k k') eqn:E.
  - apply String.eqb_eq in E. subst. apply dict_get_set_same.
  - apply String.eqb_neq in E. now apply dict_get_set_other.
Qed.

Lemma last_write_None k (ws : list (string * V)) :
  ~ In k (map fst ws) -> last_write k ws = None.
Proof.
  induction ws as [|[k' v'] ws IH]; simpl; [reflexivity|].
  intros H. rewrite IH by tauto.
  destruct (String.eqb k k') eqn:E; [|reflexivity].
  apply String.eqb_eq in E. subst. tauto.
Qed.


Lemma dict_keys_apply_writes (ws : list (string * V)) d :
  dict_keys (apply_writes ws d) = fold_left add_key (map fst ws) (dict_keys d).
Proof.
  revert d. induction ws as [|[k v] ws IH]; intros d; simpl; [reflexivity|].
  now rewrite IH, dict_keys_set.
Qed.

Lemma fold_add_key_In k (ks acc : list string) :
  In k (fold_left add_key ks acc) <-> In k acc \/ In k ks.
Proof.
  revert acc. induction ks as [|k' ks IH]; intros acc; simpl; [tauto|].
  rewrite IH, add_key_In. intuition congruence.
Qed.

Lemma fold_add_key_NoDup (ks acc : list string) :
  NoDup acc -> NoDup (fold_left add_key ks acc).
Proof.
  revert acc. induction ks as [|k ks IH]; intros acc H; simpl; [exact H|].
  apply IH. now apply add_key_NoDup.
Qed.

Lemma fold_add_key_present (ks acc : list string) :
  (forall k, In k ks -> In k acc) -> fold_left add_key ks acc = acc.
Proof.
  revert acc. induction ks as [|k ks IH]; intros acc H; simpl; [reflexivity|].
  rewrite add_key_present by (apply H; now left).
  apply IH. intros k' Hk'. apply H. now right.
Qed.

Lemma fold_add_key_fresh (ks acc : list string) :
  NoDup ks -> (forall x, In x acc -> ~ In x ks) ->
  fold_left add_key ks acc = (acc ++ ks)%list.
Proof.
  intros H. revert acc. induction H as [|k ks Hk Hnd IH]; intros acc Hacc; simpl.
  - now rewrite app_nil_r.
  - unfold add_key at 2.
    destruct (existsb (String.eqb k) acc) eqn:E.
    + apply existsb_eqb_In in E. exfalso. apply (Hacc k); [exact E | now left].
    + rewrite IH.
      * now rewrite <- app_assoc.
      * intros x Hx Hin. apply in_app_iff in Hx. destruct Hx as [Hx|[->|[]]].
        -- apply (Hacc x); [exact Hx | now right].
        -- contradiction.
Qed.

Lemma fold_add_key_distinct (ks : list string) :
  NoDup ks -> fold_left add_key ks [] = ks.
Proof.
  intros H. now rewrite fold_add_key_fresh by (assumption || intros x []).
Qed.

(** Running the same writes over their own result changes nothing. *)
Lemma apply_writes_again (ws : list (string * V)) :
  apply_writes ws (apply_writes ws []) = apply_writes ws [].
Proof.
  apply dict_ext.
  - rewrite !dict_keys_apply_writes. now apply fold_add_key_NoDup, fold_add_key_NoDup, NoDup_nil.
  - rewrite (dict_keys_apply_writes ws (apply_writes ws [])).
    apply fold_add_key_present. intros k Hk.
    rewrite dict_keys_apply_writes. apply fold_add_key_In. now right.
  - intros k. rewrite (dict_get_apply_writes k ws (apply_writes ws [])).
    destruct (last_write k ws) eqn:E; [|reflexivity].
    now rewrite dict_get_apply_writes, E.
Qed.

End DictFacts.

(** ** The action-scale loop *)

Lemma distinct_NoDup (l : list string) : distinct l = true -> NoDup l.
Proof.
  induction l as [|x l IH]; simpl; [constructor|].
  intros H. apply andb_true_iff in H. destruct H as [Hx Hl].
  constructor; [|auto].
  intros Hin. apply existsb_eqb_In in Hin. rewrite Hin in Hx. discriminate.
Qed.

Lemma all_in_incl (l1 l2 : list string) : all_in l1 l2 = true -> incl l1 l2.
Proof.
  unfold all_in. rewrite forallb_forall. intros H x Hx.
  now apply existsb_eqb_In, H.
Qed.

Lemma loop_acceptsb_spec (a : ActuatorCfg) : loop_acceptsb a = true -> loop_accepts a.
Proof.
  destruct a as [c|]; simpl; [|discriminate].
  destruct (effort_limit c) as [e|] eqn:E; [|discriminate].
  intros H. exists c, e. repeat split; [exact E|].
  now destruct (stiffness c =? 0).
Qed.

Lemma truediv_Ok (a b v : float) :
  PyFloat.truediv a b = Ok v -> (b =? 0) = false /\ v = a / b.
Proof.
  unfold PyFloat.truediv. destruct (b =? 0); [discriminate|].
  intros [= <-]. now split.
Qed.

(** The inner loop either raises or makes its writes, whatever the table
    held before. *)
Lemma action_scale_names_writes names e s d d' :
  action_scale_names names e s d = Ok d' ->
  forall d0,
    action_scale_names names e s d0
    = Ok (apply_writes (map (fun n => (n, 0.25 * e / s)) names) d0).
Proof.
  revert d. induction names as [|n names IH]; intros d H d0; simpl in *.
  - reflexivity.
  - destruct (PyFloat.truediv (0.25 * e) s) as [v|] eqn:E; simpl in *; [|discriminate].
    apply truediv_Ok in E. destruct E as [_ ->]. now apply (IH _ H).
Qed.

Lemma action_scale_names_total names e s d :
  (s =? 0) = false ->
  action_scale_names names e s d
  = Ok (apply_writes (map (fun n => (n, 0.25 * e / s)) names) d).
Proof.
  intros Hs. revert d. induction names as [|n names IH]; intros d; simpl.
  - reflexivity.
  - unfold PyFloat.truediv. rewrite Hs. simpl. apply IH.
Qed.

(** A run that returns has made exactly the writes of [writes], in order,
    and would have made them over any other table. *)
Lemma action_scale_loop_writes acts d d' :
  action_scale_loop acts d = Ok d' ->
  forall d0, action_scale_loop acts d0 = Ok (apply_writes (writes acts) d0).
Proof.
  revert d. induction acts as [|a acts IH]; intros d H d0; simpl in *.
  - reflexivity.
  - destruct a as [c|]; [|discriminate].
    destruct (effort_limit c) as [e|]; [|discriminate].
    destruct (action_scale_names (target_names_expr c) e (stiffness c) d)
      as [d1|] eqn:E; simpl in H; [|discriminate].
    rewrite (action_scale_names_writes _ _ _ _ _ E d0). simpl.
    rewrite (IH _ H). now rewrite apply_writes_app.
Qed.

(** A run that returns has passed both assertions at every actuator. *)
Lemma action_scale_loop_asserts acts d d' :
  action_scale_loop acts d = Ok d' ->
  Forall (fun a => exists c e, a = BuiltinPosition c /\ effort_limit c = Some e) acts.
Proof.
  revert d. induction acts as [|a acts IH]; intros d H; simpl in *; [constructor|].
  destruct a as [c|]; [|discriminate].
  destruct (effort_limit c) as [e|] eqn:E; [|discriminate].
  destruct (action_scale_names (target_names_expr c) e (stiffness c) d)
    as [d1|]; simpl in H; [|discriminate].
  constructor; [now exists c, e | now apply (IH d1)].
Qed.

(** The loop raises nowhere when every actuator is a position actuator
    with an effort limit and a nonzero stiffness. *)
Lemma action_scale_loop_total acts :
  Forall loop_accepts acts ->
  forall d, action_scale_loop acts d = Ok (apply_writes (writes acts) d).
Proof.
  induction 1 as [|a acts Ha _ IH]; intros d; simpl; [reflexivity|].
  destruct Ha as (c & e & -> & He & Hs). rewrite He.
  rewrite action_scale_names_total by exact Hs. simpl.
  now rewrite IH, apply_writes_app.
Qed.

Lemma writes_keys acts :
  Forall (fun a => exists c e, a = BuiltinPosition c /\ effort_limit c = Some e) acts ->
  map fst (writes acts) = target_names acts.
Proof.
  unfold writes, target_names.
  induction 1 as [|a acts Ha _ IH]; simpl; [reflexivity|].
  destruct Ha as (c & e & -> & He). rewrite He.
  rewrite map_app, IH. f_equal.
  rewrite map_map. simpl. apply map_id.
Qed.


Lemma ELF3_actuators_accepted :
  Forall loop_accepts (actuators ELF3_ARTICULATION_NEW).
Proof.
  apply Forall_forall. intros a Ha. apply loop_acceptsb_spec.
  revert a Ha. apply forallb_forall. vm_compute. reflexivity.
Qed.

Lemma ELF3_ACTION_SCALE_returns : ELF3_ACTION_SCALE_run = Ok ELF3_ACTION_SCALE.
Proof.
  unfold ELF3_ACTION_SCALE, ELF3_ACTION_SCALE_run.
  now rewrite (action_scale_loop_total _ ELF3_actuators_accepted).
Qed.

Lemma ELF3_target_names : target_names (actuators ELF3_ARTICULATION_NEW) = joint_name_idx.
Proof. reflexivity. Qed.

Lemma joint_name_idx_NoDup : NoDup joint_name_idx.
Proof. apply distinct_NoDup. vm_compute. reflexivity. Qed.


(** C10.  The loop is total over [ELF3_ARTICULATION_NEW]: every element of
    its [actuators] is a [BuiltinPositionActuatorCfg] with an effort limit
    that is not [None] and a stiffness that is not zero, so both assertions
    pass, no division is by zero, and the loop returns the table. *)
Theorem ELF3_ACTION_SCALE_loop_total :
  Forall loop_accepts (actuators ELF3_ARTICULATION_NEW) /\
  action_scale_loop (actuators ELF3_ARTICULATION_NEW) [] = Ok ELF3_ACTION_SCALE /\
  raises ELF3_ACTION_SCALE_run = false.
Proof.
  pose proof ELF3_ACTION_SCALE_returns as H.
  split; [exact ELF3_actuators_accepted|].
  split; [exact H | now rewrite H].
Qed.

(** The keys of a table built from the empty dict are the targeted names in
    list order, each at its first occurrence. *)
Lemma action_scale_loop_keys acts d :
  action_scale_loop acts [] = Ok d ->
  dict_keys d = first_occurrences (target_names acts).
Proof.
  intros Hrun.
  pose proof (action_scale_loop_writes _ _ _ Hrun []) as Hw.
  rewrite Hrun in Hw. injection Hw as ->.
  rewrite dict_keys_apply_writes.
  now rewrite (writes_keys _ (action_scale_loop_asserts _ _ _ Hrun)).
Qed.

(** C2.  The keys of [ELF3_ACTION_SCALE] are exactly the mechanism's 29
    joint names: they are the names of [joint_name_idx], in that order and
    each once, and a name is a key if and only if it is one of the three
    waist joints or a left or right hip y/x/z, knee y, ankle y/x, shoulder
    y/x/z, elbow y or wrist x/y/z joint. *)
Theorem ELF3_ACTION_SCALE_keys :
  dict_keys ELF3_ACTION_SCALE = joint_name_idx /\
  NoDup (dict_keys ELF3_ACTION_SCALE) /\
  List.length (dict_keys ELF3_ACTION_SCALE) = 29%nat /\
  (forall n, In n (dict_keys ELF3_ACTION_SCALE) <-> In n Spec.mechanism_joint_names).
Proof.
  assert (dict_keys ELF3_ACTION_SCALE = joint_name_idx) as Hk.
  { rewrite (action_scale_loop_keys _ _ ELF3_ACTION_SCALE_returns).
    rewrite ELF3_target_names.
    apply fold_add_key_distinct, joint_name_idx_NoDup. }
  rewrite Hk. split; [reflexivity|].
  split; [exact joint_name_idx_NoDup|].
  split; [reflexivity|].
  intros n. split; apply all_in_incl; vm_compute; reflexivity.
Qed.

(** C7.  Every value stored in [ELF3_ACTION_SCALE] is strictly positive,
    and every configured actuator, of the joint table and of the seven
    groups it is filled from, has a strictly positive effort limit and a
    strictly positive stiffness. *)
Theorem ELF3_ACTION_SCALE_positive :
  (forall n v, dict_get n ELF3_ACTION_SCALE = Some v -> (0 <? v) = true) /\
  forallb positive_actuator (actuators ELF3_ARTICULATION_NEW) = true /\
  forallb positive_actuator
    (map BuiltinPosition
       [ ELF3_ACTUATOR_BXI50; ELF3_ACTUATOR_BXI70; ELF3_ACTUATOR_BXI85;
         ELF3_ACTUATOR_WAIST_Y; ELF3_ACTUATOR_WAIST_X;
         ELF3_ACTUATOR_ANKLE_Y; ELF3_ACTUATOR_ANKLE_X ]) = true.
Proof.
  split; [|split; vm_compute; reflexivity].
  intros n v H. apply dict_get_In in H.
  assert (forallb (fun kv => 0 <? snd kv) ELF3_ACTION_SCALE = true) as Hall
    by (vm_compute; reflexivity).
  rewrite forallb_forall in Hall. exact (Hall (n, v) H).
Qed.

Lemma ELF3_ACTION_SCALE_positive_at_l_ankle_x :
  dict_get "l_ankle_x_joint" ELF3_ACTION_SCALE = Some 0.375 /\ (0 <? 0.375) = true.
Proof.
  split; [vm_compute; reflexivity|].
  apply (proj1 ELF3_ACTION_SCALE_positive "l_ankle_x_joint").
  vm_compute; reflexivity.
Defined.

(** C8.  Building the table is deterministic and idempotent: two runs of
    the loop over the same ordered actuator tuple return the same table
    (same entries in the same order, each value the same binary64 number),
    running the loop again over the table it built leaves that table as it
    is, and the keys stand in the order in which the actuator list names
    them. *)
Theorem action_scale_loop_deterministic acts d :
  action_scale_loop acts [] = Ok d ->
  (forall d', action_scale_loop acts [] = Ok d' -> d' = d) /\
  action_scale_loop acts d = Ok d /\
  dict_keys d = first_occurrences (target_names acts).
Proof.
  intros Hrun. split; [|split].
  - intros d' H'. congruence.
  - rewrite (action_scale_loop_writes _ _ _ Hrun d).
    pose proof (action_scale_loop_writes _ _ _ Hrun []) as Hw.
    rewrite Hrun in Hw. injection Hw as ->.
    now rewrite apply_writes_again.
  - now apply action_scale_loop_keys.
Qed.

Lemma action_scale_loop_deterministic_ELF3 :
  action_scale_loop (actuators ELF3_ARTICULATION_NEW) [] = Ok ELF3_ACTION_SCALE /\
  ((forall d',
      action_scale_loop (actuators ELF3_ARTICULATION_NEW) [] = Ok d' ->
      d' = ELF3_ACTION_SCALE) /\
   action_scale_loop (actuators ELF3_ARTICULATION_NEW) ELF3_ACTION_SCALE
   = Ok ELF3_ACTION_SCALE /\
   dict_keys ELF3_ACTION_SCALE
   = first_occurrences (target_names (actuators ELF3_ARTICULATION_NEW))).
Proof.
  split; [vm_compute; reflexivity|].
  apply (action_scale_loop_deterministic (actuators ELF3_ARTICULATION_NEW)).
  vm_compute; reflexivity.
Defined.

(** The order of the list is the order that counts: when two actuators
    target one name, the later one's scale stays, so swapping them changes
    the table. *)
Example action_scale_loop_last_write_wins :
  let a1 := BuiltinPosition (mkBuiltinPositionActuatorCfg ["j"] 2 0 (Some (Int 8)) 0) in
  let a2 := BuiltinPosition (mkBuiltinPositionActuatorCfg ["j"] 4 0 (Some (Int 8)) 0) in
  action_scale_loop [a1; a2] [] = Ok [("j", 0.5)] /\
  action_scale_loop [a2; a1] [] = Ok [("j", 1)].
Proof. split; vm_compute; reflexivity. Qed.

(** ** Motor classes and gains *)

(** The exact square of [NATURAL_FREQ] lies an eighth of a unit in the last
    place or less above the float [NATURAL_FREQ * NATURAL_FREQ]: a [pow]
    that errs by less than seven eighths of a unit returns that float. *)
Lemma NATURAL_FREQ_square_not_a_near_tie :
  exists m q : positive,
    Prim2SF NATURAL_FREQ = S754_finite false m (-47) /\
    Prim2SF (PyFloat.pow2 NATURAL_FREQ) = S754_finite false q (-41) /\
    (Z.pos q * 2 ^ 53 <= Z.pos m * Z.pos m < Z.pos q * 2 ^ 53 + 2 ^ 50)%Z.
Proof.
  exists 8842797189782805%positive, 8681395839941283%positive.
  split; [vm_compute; reflexivity|].
  split; [vm_compute; reflexivity|].
  split; [apply Z.leb_le | apply Z.ltb_lt]; vm_compute; reflexivity.
Qed.

(** The three module-level calls of the helper return. *)
Lemma ARMATURE_calls_return :
  Actuator.reflected_inertia_from_two_stage_planetary
    ROTOR_INERTIAS_BXI50 GEARS_BXI50 = Ok ARMATURE_BXI50 /\
  Actuator.reflected_inertia_from_two_stage_planetary
    ROTOR_INERTIAS_BXI70 GEARS_BXI70 = Ok ARMATURE_BXI70 /\
  Actuator.reflected_inertia_from_two_stage_planetary
    ROTOR_INERTIAS_BXI85 GEARS_BXI85 = Ok ARMATURE_BXI85.
Proof. repeat split; vm_compute; reflexivity. Qed.

(** *** [NATURAL_FREQ] and 20 pi *)

Lemma Q2R_inject_nat (n : nat) : Q2R (inject_Z (Z.of_nat n)) = INR n.
Proof. unfold Q2R. simpl. rewrite INR_IZR_INZ. field. Qed.

Lemma Q2R_qpow (q : Q) (n : nat) : Q2R (qpow q n) = (Q2R q ^ n)%R.
Proof.
  induction n as [|n IH]; simpl.
  - unfold Q2R. simpl. field.
  - now rewrite Q2R_mult, IH.
Qed.

Lemma Q2R_atan_term (x : Q) (n : nat) : Q2R (atan_term x n) = Ratan_seq (Q2R x) n.
Proof.
  unfold atan_term, Ratan_seq. unfold Qdiv. rewrite Q2R_mult, Q2R_qpow.
  rewrite Q2R_inv.
  - now rewrite Q2R_inject_nat.
  - unfold Qeq. simpl. lia.
Qed.

Lemma Q2R_machin_term (n : nat) : Q2R (machin_term n) = tg_alt PI_2_3_7_tg n.
Proof.
  unfold machin_term, tg_alt, PI_2_3_7_tg.
  rewrite Q2R_mult, Q2R_qpow, Q2R_plus, Q2R_mult, !Q2R_atan_term.
  replace (Q2R (1 # 3)) with (/ 3)%R by (unfold Q2R; simpl; lra).
  replace (Q2R (1 # 7)) with (/ 7)%R by (unfold Q2R; simpl; lra).
  replace (Q2R (-1)) with (-1)%R by (unfold Q2R; simpl; lra).
  replace (Q2R 2) with 2%R by (unfold Q2R; simpl; lra).
  reflexivity.
Qed.

Lemma Q2R_machin_sum (n : nat) :
  Q2R (machin_sum n) = sum_f_R0 (tg_alt PI_2_3_7_tg) n.
Proof.
  induction n as [|n IH]; simpl.
  - apply Q2R_machin_term.
  - now rewrite Q2R_plus, IH, Q2R_machin_term.
Qed.

(** Pi lies between two consecutive partial sums of the alternating
    series. *)
Lemma PI_between (N : nat) :
  (Q2R (4 * machin_sum (S (2 * N))) <= PI <= Q2R (4 * machin_sum (2 * N)))%R.
Proof.
  destruct (PI_2_3_7_ineq N) as [Hlo Hhi].
  rewrite !Q2R_mult, !Q2R_machin_sum.
  replace (Q2R 4) with 4%R by (unfold Q2R; simpl; lra).
  lra.
Qed.

(** The source writes pi to ten decimals: [NATURAL_FREQ] is a little below
    20 pi, by less than two parts in 10^9. *)
Lemma NATURAL_FREQ_near_20_pi :
  (0 < 20 * PI - Q2R (PyFloat.value NATURAL_FREQ) < 2 / 10 ^ 9)%R.
Proof.
  destruct (PI_between 6) as [Hlo Hhi].
  assert (PyFloat.value NATURAL_FREQ + 0 < 20 * (4 * machin_sum (S (2 * 6))))%Q as H1
    by (vm_compute; reflexivity).
  assert (20 * (4 * machin_sum (2 * 6))
          < PyFloat.value NATURAL_FREQ + (2 # 1000000000))%Q as H2
    by (vm_compute; reflexivity).
  apply Qlt_Rlt in H1, H2.
  rewrite Q2R_plus, Q2R_mult in H1. rewrite Q2R_plus, Q2R_mult in H2.
  replace (Q2R 20) with 20%R in * by (unfold Q2R; simpl; lra).
  replace (Q2R 0) with 0%R in * by (unfold Q2R; simpl; lra).
  replace (Q2R (2 # 1000000000)) with (2 / 10 ^ 9)%R in *
    by (unfold Q2R; simpl; lra).
  lra.
Qed.

Ltac second_order_computation :=
  unfold Spec.second_order; cbv zeta;
  split; [vm_compute; reflexivity|];
  split; [vm_compute; reflexivity|];
  split; apply Qle_bool_imp_le; vm_compute; reflexivity.

(** C4.  For each motor class the gains are those of the second-order
    relations, [STIFFNESS = ARMATURE × ω²] and
    [DAMPING = 2 × ζ × ARMATURE × ω]: as floats they are the products the
    relations name, and as numbers they are those products up to the
    rounding of the float operations.  [ω] is the configured natural
    frequency, 20 pi rad/s (10 Hz) with pi written to ten decimals, and [ζ]
    the configured damping ratio 2.0. *)
Theorem gains_second_order :
  (Spec.synthesize ARMATURE_BXI50 NATURAL_FREQ DAMPING_RATIO
   = Ok (STIFFNESS_BXI50, DAMPING_BXI50) /\
   Spec.second_order ARMATURE_BXI50 NATURAL_FREQ DAMPING_RATIO
     STIFFNESS_BXI50 DAMPING_BXI50) /\
  (Spec.synthesize ARMATURE_BXI70 NATURAL_FREQ DAMPING_RATIO
   = Ok (STIFFNESS_BXI70, DAMPING_BXI70) /\
   Spec.second_order ARMATURE_BXI70 NATURAL_FREQ DAMPING_RATIO
     STIFFNESS_BXI70 DAMPING_BXI70) /\
  (Spec.synthesize ARMATURE_BXI85 NATURAL_FREQ DAMPING_RATIO
   = Ok (STIFFNESS_BXI85, DAMPING_BXI85) /\
   Spec.second_order ARMATURE_BXI85 NATURAL_FREQ DAMPING_RATIO
     STIFFNESS_BXI85 DAMPING_BXI85) /\
  NATURAL_FREQ = 20 * 3.1415926535 /\
  (0 < 20 * PI - Q2R (PyFloat.value NATURAL_FREQ) < 2 / 10 ^ 9)%R /\
  DAMPING_RATIO = 2.
Proof.
  split; [split; [vm_compute; reflexivity | second_order_computation]|].
  split; [split; [vm_compute; reflexivity | second_order_computation]|].
  split; [split; [vm_compute; reflexivity | second_order_computation]|].
  split; [vm_compute; reflexivity|].
  split; [exact NATURAL_FREQ_near_20_pi | vm_compute; reflexivity].
Qed.

(** The relation tells the square of the frequency from the frequency: a
    stiffness made with [ω] in place of [ω²] does not meet it. *)
Example second_order_needs_the_square :
  ~ Spec.second_order ARMATURE_BXI50 NATURAL_FREQ DAMPING_RATIO
      (ARMATURE_BXI50 * NATURAL_FREQ) DAMPING_BXI50.
Proof.
  unfold Spec.second_order. cbv zeta. intros (_ & _ & H & _).
  apply Qle_bool_iff in H. vm_compute in H. discriminate.
Qed.

(** The damping product does not depend on how it is bracketed: the
    factors 2 and ζ = 2 only shift the exponent. *)
Lemma damping_any_bracketing :
  Forall
    (fun a =>
       2 * (DAMPING_RATIO * (a * NATURAL_FREQ)) = 2 * DAMPING_RATIO * a * NATURAL_FREQ /\
       (2 * DAMPING_RATIO) * (a * NATURAL_FREQ) = 2 * DAMPING_RATIO * a * NATURAL_FREQ)
    [ARMATURE_BXI50; ARMATURE_BXI70; ARMATURE_BXI85].
Proof. repeat constructor; vm_compute; reflexivity. Qed.

(** C6.  The armatures of the three classes are strictly ordered,
    [ARMATURE_BXI50 < ARMATURE_BXI70 < ARMATURE_BXI85], and under the shared
    gain target so are the stiffnesses,
    [STIFFNESS_BXI85 > STIFFNESS_BXI70 > STIFFNESS_BXI50]. *)
Theorem armature_order_preserved :
  (ARMATURE_BXI50 <? ARMATURE_BXI70) = true /\
  (ARMATURE_BXI70 <? ARMATURE_BXI85) = true /\
  (STIFFNESS_BXI70 <? STIFFNESS_BXI85) = true /\
  (STIFFNESS_BXI50 <? STIFFNESS_BXI70) = true /\
  STIFFNESS_BXI50 = ARMATURE_BXI50 * PyFloat.pow2 NATURAL_FREQ /\
  STIFFNESS_BXI70 = ARMATURE_BXI70 * PyFloat.pow2 NATURAL_FREQ /\
  STIFFNESS_BXI85 = ARMATURE_BXI85 * PyFloat.pow2 NATURAL_FREQ.
Proof.
  repeat split; vm_compute; reflexivity.
Qed.

(** ** Parallel-linkage bindings *)

(** Replace the exact value of each closed float of [H] by its fraction. *)
Ltac evaluate_values_in H :=
  repeat match type of H with
         | context [PyFloat.value ?x] =>
             let v := eval vm_compute in (PyFloat.value x) in
             change (PyFloat.value x) with v in H
         end.

Ltac scaled_by_computation :=
  unfold Spec.scaled_by;
  split; [vm_compute; reflexivity|];
  split; [vm_compute; reflexivity|];
  apply Qle_bool_imp_le; vm_compute; reflexivity.

(** The armature of the ankle-roll binding is 1.3 BXI50 reflected inertias:
    too much for one BXI50 actuator, too little for two or more, and less
    than one actuator of either larger class. *)
Lemma ankle_x_not_prescaled (base : Spec.single_actuator) (k : Z) :
  In base motor_classes -> ~ Spec.prescaled k base ELF3_ACTUATOR_ANKLE_X.
Proof.
  intros Hbase (Hk & _ & _ & (_ & _ & Ha)).
  destruct Hbase as [<- | [<- | [<- | []]]];
    cbn [Spec.base_armature SINGLE_BXI50 SINGLE_BXI70 SINGLE_BXI85] in Ha;
    evaluate_values_in Ha;
    (rewrite (Qabs_pos (inject_Z k * _)) in Ha;
     [| unfold Qle; cbn [Qnum Qden Qmult inject_Z]; lia ]);
    apply Qabs_Qle_condition in Ha; destruct Ha as [Hlo Hhi];
    unfold Qle in Hlo, Hhi;
    cbn [Qnum Qden Qmult Qminus Qplus Qopp inject_Z] in Hlo, Hhi;
    lia.
Qed.

(** C5, as the code has it.  The waist-pitch, waist-roll and ankle-pitch
    bindings take stiffness, damping and armature from one motor class
    (BXI70, BXI70, BXI50), each multiplied by the same whole number (2, 3,
    2).  The ankle-roll binding is not scaled that way: its stiffness is the
    constant 10.0, its damping the constant 1.0, and its armature is 1.3
    times the BXI50 reflected inertia, which no whole multiple of any motor
    class gives. *)
Theorem parallel_linkage_scaling :
  (stiffness ELF3_ACTUATOR_WAIST_Y = STIFFNESS_BXI70 * 2 /\
   damping ELF3_ACTUATOR_WAIST_Y = DAMPING_BXI70 * 2 /\
   armature ELF3_ACTUATOR_WAIST_Y = Actuator.reflected_inertia ACTUATOR_BXI70 * 2 /\
   Spec.prescaled 2 SINGLE_BXI70 ELF3_ACTUATOR_WAIST_Y) /\
  (stiffness ELF3_ACTUATOR_WAIST_X = STIFFNESS_BXI70 * 3 /\
   damping ELF3_ACTUATOR_WAIST_X = DAMPING_BXI70 * 3 /\
   armature ELF3_ACTUATOR_WAIST_X = Actuator.reflected_inertia ACTUATOR_BXI70 * 3 /\
   Spec.prescaled 3 SINGLE_BXI70 ELF3_ACTUATOR_WAIST_X) /\
  (stiffness ELF3_ACTUATOR_ANKLE_Y = STIFFNESS_BXI50 * 2 /\
   damping ELF3_ACTUATOR_ANKLE_Y = DAMPING_BXI50 * 2 /\
   armature ELF3_ACTUATOR_ANKLE_Y = Actuator.reflected_inertia ACTUATOR_BXI50 * 2 /\
   Spec.prescaled 2 SINGLE_BXI50 ELF3_ACTUATOR_ANKLE_Y) /\
  (stiffness ELF3_ACTUATOR_ANKLE_X = 10 /\
   damping ELF3_ACTUATOR_ANKLE_X = 1 /\
   armature ELF3_ACTUATOR_ANKLE_X = Actuator.reflected_inertia ACTUATOR_BXI50 * 1.3 /\
   forall base k,
     In base motor_classes -> ~ Spec.prescaled k base ELF3_ACTUATOR_ANKLE_X).
Proof.
  repeat match goal with
         | |- _ /\ _ => split
         | |- _ = _ => reflexivity
         | |- Spec.prescaled _ _ _ =>
             unfold Spec.prescaled; split; [lia | split; [|split]]; scaled_by_computation
         end.
  exact ankle_x_not_prescaled.
Qed.

(** C5, as the claim has it, fails: not every parallel-linkage binding is a
    motor class scaled by one actuator count; the ankle-roll binding is
    not. *)
Lemma parallel_linkage_not_all_prescaled :
  ~ (forall binding,
       In binding parallel_linkage_bindings ->
       exists base k, In base motor_classes /\ Spec.prescaled k base binding).
Proof.
  intros H.
  destruct (H ELF3_ACTUATOR_ANKLE_X) as (base & k & Hbase & Hk).
  - simpl. tauto.
  - exact (ankle_x_not_prescaled base k Hbase Hk).
Qed.

(** ** Configuration trees: reading around a write *)

Lemma bind_Ok {A B : Type} (r : result A) (k : A -> result B) (b : B) :
  bind r k = Ok b -> exists a, r = Ok a /\ k a = Ok b.
Proof. destruct r as [a|e]; simpl; [now exists a | discriminate]. Qed.

Lemma step_eqb_eq (a b : step) : step_eqb a b = true -> a = b.
Proof.
  destruct a, b; simpl; try discriminate; intros H;
    apply String.eqb_eq in H; now subst.
Qed.

Lemma step_eqb_refl (a : step) : step_eqb a a = true.
Proof. destruct a; simpl; apply String.eqb_refl. Qed.

Lemma dict_get_remove_other {V : Type} (k k' : string) (d : dict_of V) :
  k <> k' -> dict_get k (dict_remove k' d) = dict_get k d.
Proof.
  intros Hne. induction d as [|[k0 v0] d IH]; simpl; [reflexivity|].
  destruct (String.eqb k' k0) eqn:E.
  - apply String.eqb_eq in E. subst k0.
    apply String.eqb_neq in Hne. now rewrite Hne.
  - simpl. now rewrite IH.
Qed.

Lemma get_set_step_same s v o o' : set_step s v o = Ok o' -> get_step s o' = Ok v.
Proof.
  destruct s as [n|k], o; simpl; try discriminate; intros [= <-]; simpl;
    now rewrite dict_get_set_same.
Qed.

Lemma set_step_local s v : local_update s (set_step s v).
Proof.
  intros x x' H. split.
  - destruct s, x; simpl in H; try discriminate; now injection H as <-.
  - intros t Ht.
    destruct s as [n|k], x; simpl in H; try discriminate; injection H as <-;
      destruct t as [n'|k']; simpl in *; try reflexivity;
      apply String.eqb_neq in Ht;
      rewrite dict_get_set_other by congruence; reflexivity.
Qed.

Lemma delitem_local k : local_update (Item k) (delitem k).
Proof.
  intros x x' H. destruct x; simpl in H; try discriminate.
  destruct (dict_mem k entries); [|discriminate]. injection H as <-.
  split; [reflexivity|]. intros [n'|k'] Ht; simpl in *; [reflexivity|].
  apply String.eqb_neq in Ht. rewrite dict_get_remove_other by congruence.
  reflexivity.
Qed.

Lemma pop_or_none_local k : local_update (Item k) (pop_or_none k).
Proof.
  intros x x' H. destruct x; simpl in H; try discriminate. injection H as <-.
  split; [reflexivity|]. intros [n'|k'] Ht; simpl in *; [reflexivity|].
  apply String.eqb_neq in Ht. rewrite dict_get_remove_other by congruence.
  reflexivity.
Qed.

Lemma set_step_after_get s x v o :
  get_step s o = Ok x -> exists o', set_step s v o = Ok o'.
Proof.
  destruct s, o; simpl; try discriminate; intros _; eexists; reflexivity.
Qed.

(** Below a write, away from it: the kind of every value that is not at or
    below the written step is what it was. *)
Lemma update_path_tag p s f o o' q :
  local_update s f ->
  update_path p f o = Ok o' ->
  is_prefix (p ++ [s])%list q = false ->
  tag_at q o' = tag_at q o.
Proof.
  intros Hf. revert o o' q. induction p as [|a p IH]; intros o o' q Hup Hq; simpl in *.
  - destruct (Hf _ _ Hup) as [Htag Hother].
    destruct q as [|t q]; unfold tag_at; simpl.
    + now rewrite Htag.
    + rewrite andb_true_r in Hq. now rewrite (Hother t Hq).
  - apply bind_Ok in Hup. destruct Hup as (x & Hx & Hup).
    apply bind_Ok in Hup. destruct Hup as (x' & Hx' & Hset).
    destruct q as [|b q]; unfold tag_at; simpl.
    + now rewrite (proj1 (set_step_local a x' _ _ Hset)).
    + destruct (step_eqb a b) eqn:Eab; simpl in Hq.
      * apply step_eqb_eq in Eab. subst b.
        rewrite (get_set_step_same _ _ _ _ Hset), Hx. simpl.
        exact (IH _ _ _ Hx' Hq).
      * now rewrite (proj2 (set_step_local a x' _ _ Hset) b Eab).
Qed.

(** Away from a write: a path that parts ways with the written one reads
    the very same value. *)
Lemma update_path_frame p s f o o' q :
  local_update s f ->
  update_path p f o = Ok o' ->
  diverge (p ++ [s])%list q = true ->
  get_path q o' = get_path q o.
Proof.
  intros Hf. revert o o' q. induction p as [|a p IH]; intros o o' q Hup Hq; simpl in *.
  - destruct q as [|t q]; [discriminate|]. simpl.
    destruct (step_eqb s t) eqn:Est; [discriminate|].
    now rewrite (proj2 (Hf _ _ Hup) t Est).
  - apply bind_Ok in Hup. destruct Hup as (x & Hx & Hup).
    apply bind_Ok in Hup. destruct Hup as (x' & Hx' & Hset).
    destruct q as [|b q]; [discriminate|]. simpl.
    destruct (step_eqb a b) eqn:Eab.
    + apply step_eqb_eq in Eab. subst b.
      rewrite (get_set_step_same _ _ _ _ Hset), Hx. simpl.
      exact (IH _ _ _ Hx' Hq).
    + now rewrite (proj2 (set_step_local a x' _ _ Hset) b Eab).
Qed.

(** At a write: the assigned value is read back. *)
Lemma assign_get p last v o o' :
  assign p last v o = Ok o' -> get_path (p ++ [last])%list o' = Ok v.
Proof.
  unfold assign. revert o o'. induction p as [|a p IH]; intros o o' H; simpl in *.
  - now rewrite (get_set_step_same _ _ _ _ H).
  - apply bind_Ok in H. destruct H as (x & Hx & H).
    apply bind_Ok in H. destruct H as (x' & Hx' & Hset).
    rewrite (get_set_step_same _ _ _ _ Hset). simpl. exact (IH _ _ Hx').
Qed.

(** An update returns when the object to mutate is there and the mutation
    itself returns. *)
Lemma update_path_returns p f o x x' :
  get_path p o = Ok x -> f x = Ok x' -> exists o', update_path p f o = Ok o'.
Proof.
  revert o. induction p as [|a p IH]; intros o Hget Hf; simpl in *.
  - injection Hget as ->. now exists x'.
  - apply bind_Ok in Hget. destruct Hget as (y & Hy & Hget).
    destruct (IH _ Hget Hf) as [y' Hy'].
    rewrite Hy. simpl. rewrite Hy'. simpl.
    exact (set_step_after_get _ _ _ _ Hy).
Qed.

(** An attribute assignment returns when its target is an object. *)
Lemma assign_attr_returns p name v o c :
  tag_at p o = Ok (TObj c) -> exists o', assign p (Attr name) v o = Ok o'.
Proof.
  unfold tag_at. intros H. apply bind_Ok in H. destruct H as (x & Hx & Htag).
  destruct x; try discriminate.
  apply (update_path_returns p _ o _ (VObj class_name (dict_set name v attrs)) Hx).
  reflexivity.
Qed.

Lemma tag_at_obj q o c :
  tag_at q o = Ok (TObj c) -> exists attrs, get_path q o = Ok (VObj c attrs).
Proof.
  unfold tag_at. intros H. apply bind_Ok in H. destruct H as (x & Hx & Htag).
  destruct x; try discriminate. injection Htag as ->. now exists attrs.
Qed.

Lemma get_path_single s o : get_path [s] o = get_step s o.
Proof. simpl. now destruct (get_step s o). Qed.

(** Rewrite a read or a kind of a later configuration into the same read of
    an earlier one, across the writes recorded in the context. *)
Ltac across_writes :=
  repeat match goal with
         | E : assign ?p ?l ?v ?a = Ok ?b |- context [tag_at ?q ?b] =>
             rewrite (update_path_tag p l _ a b q (set_step_local l v) E eq_refl)
         | E : assign ?p ?l ?v ?a = Ok ?b |- context [get_path ?q ?b] =>
             rewrite (update_path_frame p l _ a b q (set_step_local l v) E eq_refl)
         | E : update_path ?p (delitem ?k) ?a = Ok ?b |- context [tag_at ?q ?b] =>
             rewrite (update_path_tag p (Item k) _ a b q (delitem_local k) E eq_refl)
         | E : update_path ?p (delitem ?k) ?a = Ok ?b |- context [get_path ?q ?b] =>
             rewrite (update_path_frame p (Item k) _ a b q (delitem_local k) E eq_refl)
         | E : update_path ?p (pop_or_none ?k) ?a = Ok ?b |- context [tag_at ?q ?b] =>
             rewrite (update_path_tag p (Item k) _ a b q (pop_or_none_local k) E eq_refl)
         | E : update_path ?p (pop_or_none ?k) ?a = Ok ?b |- context [get_path ?q ?b] =>
             rewrite (update_path_frame p (Item k) _ a b q (pop_or_none_local k) E eq_refl)
         end.

(** Run the attribute assignment at the head of the goal. *)
Ltac run_assign :=
  match goal with
  | |- context [bind (assign ?p (Attr ?n) ?v ?a) _] =>
      let c := fresh "c" in
      let H := fresh "H" in
      let b := fresh "cfg" in
      let E := fresh "E" in
      assert (exists c, tag_at p a = Ok (TObj c)) as [c H]
        by (across_writes; first [eassumption | eexists; eassumption]);
      destruct (assign_attr_returns p n v a c H) as [b E];
      rewrite E; cbn [bind]; clear H
  end.


(** The same, for a path [q] known only through hypothesis [Hq] on the
    written paths. *)
Ltac across_writes_by Hq :=
  repeat match goal with
         | E : assign ?p ?l ?v ?a = Ok ?b |- context [tag_at ?q ?b] =>
             rewrite (update_path_tag p l _ a b q (set_step_local l v) E)
               by (apply Hq; simpl; auto 12)
         | E : assign ?p ?l ?v ?a = Ok ?b |- context [get_path ?q ?b] =>
             rewrite (update_path_frame p l _ a b q (set_step_local l v) E)
               by (apply Hq; simpl; auto 12)
         | E : update_path ?p (delitem ?k) ?a = Ok ?b |- context [tag_at ?q ?b] =>
             rewrite (update_path_tag p (Item k) _ a b q (delitem_local k) E)
               by (apply Hq; simpl; auto 12)
         | E : update_path ?p (delitem ?k) ?a = Ok ?b |- context [get_path ?q ?b] =>
             rewrite (update_path_frame p (Item k) _ a b q (delitem_local k) E)
               by (apply Hq; simpl; auto 12)
         end.

(** The value an assignment of the context wrote is still there. *)
Ltac written_by E :=
  across_writes; exact (assign_get _ _ _ _ _ E).

(** What the flat configuration makes of a rough configuration that has all
    it relies on. *)
Lemma flat_after_rough {classes : Classes} play cfgR :
  flat_needs play cfgR ->
  forall make_velocity_env_cfg,
    bxi_elf3_rough_env_cfg make_velocity_env_cfg play = Ok cfgR ->
    exists cfgF,
      bxi_elf3_flat_env_cfg make_velocity_env_cfg play = Ok cfgF /\
      flat_frame play cfgR cfgF /\
      flat_written play cfgR cfgF.
Proof.
  intros (Hsim & Hmujoco & [ct Hterrain] & (entries & Hcur & Hlevels) & Hplay)
    base Hrough.
  unfold bxi_elf3_flat_env_cfg. rewrite Hrough. cbn [bind].
  run_assign. run_assign. run_assign. run_assign.
  (* assert cfg.scene.terrain is not None *)
  assert (exists attrs,
            get_path [Attr "scene"; Attr "terrain"] cfg2 = Ok (VObj ct attrs))
    as [attrs Ht] by (apply tag_at_obj; across_writes; exact Hterrain).
  rewrite Ht. cbn [bind is_none negb assert]. clear attrs Ht.
  run_assign. run_assign.
  (* assert "terrain_levels" in cfg.curriculum *)
  assert (get_path [Attr "curriculum"] cfg4 = Ok (VDict entries)) as Hcur4
    by (across_writes; rewrite get_path_single; exact Hcur).
  rewrite get_path_single in Hcur4. cbn [get_step] in Hcur4.
  rewrite Hcur4. cbn [bind contains]. rewrite Hlevels. cbn [bind assert].
  destruct (update_path_returns [Attr "curriculum"] (delitem "terrain_levels")
              cfg4 (VDict entries) (VDict (dict_remove "terrain_levels" entries)))
    as [cfg5 E5].
  { rewrite get_path_single. exact Hcur4. }
  { cbn [delitem]. now rewrite Hlevels. }
  rewrite E5. cbn [bind].
  assert (get_path [Attr "curriculum"] cfg5
          = Ok (VDict (dict_remove "terrain_levels" entries))) as Hcur5.
  { rewrite get_path_single. cbn [update_path] in E5.
    change (get_step (Attr "curriculum") cfg4) with (getattr "curriculum" cfg4) in E5.
    rewrite Hcur4 in E5. cbn [bind delitem] in E5. rewrite Hlevels in E5.
    cbn [bind] in E5. exact (get_set_step_same _ _ _ _ E5). }
  destruct play.
  - destruct (Hplay eq_refl) as [(ctw & Htwist & Hsub) Hranges].
    assert (exists attrs,
              get_path [Attr "commands"; Item "twist"] cfg5 = Ok (VObj ctw attrs))
      as [attrs Ht] by (apply tag_at_obj; across_writes; exact Htwist).
    rewrite Ht. cbn [bind isinstance]. rewrite Hsub. cbn [bind assert].
    clear attrs Ht.
    run_assign.
    assert (exists c, tag_at [Attr "commands"; Item "twist"; Attr "ranges"] cfg6
                      = Ok (TObj c)) as [c' H'] by (across_writes; first [eassumption | eexists; eassumption]).
    destruct (assign_attr_returns _ "ang_vel_z"
                (VTuple [VFloat (-0.7); VFloat 0.7]) _ _ H') as [cfg7 E7].
    exists cfg7. split; [exact E7|]. clear H'.
    split; [split|].
    + intros q Hq. unfold untouched_by_flat in Hq. now across_writes_by Hq.
    + intros q Hq. now across_writes_by Hq.
    + unfold flat_written.
      repeat match goal with |- _ /\ _ => split end.
      * written_by E.
      * written_by E0.
      * written_by E1.
      * written_by E2.
      * written_by E3.
      * written_by E4.
      * exists entries. split.
        -- rewrite get_path_single. exact Hcur.
        -- across_writes. exact Hcur5.
      * intros _. split; [written_by E6 | written_by E7].
  - exists cfg5. split; [reflexivity|].
    split; [split|].
    + intros q Hq. unfold untouched_by_flat in Hq. now across_writes_by Hq.
    + intros q Hq. now across_writes_by Hq.
    + unfold flat_written.
      repeat match goal with |- _ /\ _ => split end.
      * written_by E.
      * written_by E0.
      * written_by E1.
      * written_by E2.
      * written_by E3.
      * written_by E4.
      * exists entries. split.
        -- rewrite get_path_single. exact Hcur.
        -- exact Hcur5.
      * discriminate.
Qed.


Ltac invert_binds H :=
  repeat match type of H with
         | bind _ _ = Ok _ =>
             apply bind_Ok in H;
             let x := fresh "cfg" in
             let E := fresh "E" in
             destruct H as (x & E & H); cbv beta in H
         end.

(** The same as [across_writes], in a hypothesis. *)
Ltac across_writes_in H :=
  repeat match type of H with
         | context [tag_at ?q ?b] =>
             match goal with
             | E : assign ?p ?l ?v ?a = Ok b |- _ =>
                 rewrite (update_path_tag p l _ a b q (set_step_local l v) E eq_refl) in H
             | E : update_path ?p (pop_or_none ?k) ?a = Ok b |- _ =>
                 rewrite (update_path_tag p (Item k) _ a b q (pop_or_none_local k) E eq_refl) in H
             end
         end.

Lemma assert_isinstance {classes : Classes} o cls u :
  assert (isinstance o cls) = Ok u ->
  exists c attrs, o = VObj c attrs /\ issubclass c cls = true.
Proof.
  destruct o; simpl; try discriminate.
  destruct (issubclass class_name cls) eqn:E; [|discriminate].
  intros _. now exists class_name, attrs.
Qed.

(** The guard [terrain is not None and terrain.terrain_generator is not
    None]: a run that returns found the terrain [None] or an object, and
    either left the configuration alone or ran the guarded body. *)
Lemma terrain_guard terrain cfg (body : result PyVal) cfg' :
  (if is_none terrain then Ok cfg
   else
     terrain_generator <- getattr "terrain_generator" terrain ;;
     if is_none terrain_generator then Ok cfg else body) = Ok cfg' ->
  (tag_of terrain = TNone \/ exists c, tag_of terrain = TObj c) /\
  (cfg' = cfg \/ body = Ok cfg').
Proof.
  destruct terrain; simpl; try discriminate.
  - intros [= <-]. split; [now left | now left].
  - destruct (dict_get "terrain_generator" attrs) as [tg|]; simpl; [|discriminate].
    intros H. split; [right; now exists class_name|].
    destruct (is_none tg); [left; now injection H | now right].
Qed.

Lemma get_path_below_object p name rest o v :
  get_path (p ++ Attr name :: rest)%list o = Ok v -> exists c, tag_at p o = Ok (TObj c).
Proof.
  unfold tag_at. revert o. induction p as [|a p IH]; intros o H; simpl in *.
  - apply bind_Ok in H. destruct H as (x & Hx & _).
    destruct o; simpl in Hx; try discriminate. now exists class_name.
  - apply bind_Ok in H. destruct H as (x & Hx & H). rewrite Hx. simpl.
    exact (IH _ H).
Qed.

(** A rough configuration has what the flat one relies on as soon as it has
    a terrain, a "terrain_levels" curriculum entry and, in play mode, the
    twist [ranges]: the rest, [bxi_elf3_rough_env_cfg] has read or asserted
    itself, at paths that nothing it wrote afterwards has replaced. *)
Lemma rough_provides {classes : Classes} play cfgR make_velocity_env_cfg :
  bxi_elf3_rough_env_cfg make_velocity_env_cfg play = Ok cfgR ->
  flat_ready play cfgR ->
  flat_needs play cfgR.
Proof.
  intros H ((terrain & Hterrain & Hnone) & Hcur & Hranges).
  unfold bxi_elf3_rough_env_cfg in H. cbv zeta in H.
  cbn [set_reward_site_names] in H.
  invert_binds H.
  invert_binds E21. injection E21 as <-.  (* the loop over the three foot rewards *)
  (* what the run saw of the terrain and of the twist command *)
  apply terrain_guard in E5. destruct E5 as [Hkind E5].
  assert (tag_at [Attr "scene"; Attr "terrain"] cfg3 = Ok (tag_of cfg4)) as Hkind3
    by (unfold tag_at; now rewrite E4).
  destruct (assert_isinstance _ _ _ E11) as (ctw & attrs & -> & Hsub).
  assert (tag_at [Attr "commands"; Item "twist"] cfg9 = Ok (TObj ctw)) as Htwist
    by (unfold tag_at; now rewrite E10).
  assert (tag_at [Attr "scene"; Attr "terrain"] cfgR = Ok (tag_of terrain)) as HkindR
    by (unfold tag_at; now rewrite Hterrain).
  assert (get_path [Attr "sim"; Attr "mujoco"; Attr "ccd_iterations"] cfg
          = Ok (VInt 500)) as Hccd by exact (assign_get _ _ _ _ _ E).
  assert (flat_needs play cfgR) as Hgoal; [|exact Hgoal].
  (* the terrain guard of the main body, then the play-mode block *)
  destruct E5 as [-> | E5];
    (destruct play;
     [ invert_binds H;
       match goal with
       | Hg : (if is_none _ then _ else _) = Ok cfgR |- _ =>
           apply terrain_guard in Hg; destruct Hg as [_ [-> | Hg]];
           [| invert_binds Hg]
       end
     | injection H as <- ]);
    (repeat split;
     [ apply (get_path_below_object [Attr "sim"] "mujoco" [Attr "ccd_iterations"]
                _ (VInt 500));
       cbn [app]; across_writes; exact Hccd
     | apply (get_path_below_object [Attr "sim"; Attr "mujoco"] "ccd_iterations" []
                _ (VInt 500));
       cbn [app]; across_writes; exact Hccd
     | across_writes; across_writes_in Hkind3; across_writes_in HkindR;
       rewrite Hkind3 in HkindR; injection HkindR as HkindR;
       destruct Hkind as [Hk | [c Hk]]; rewrite Hk in HkindR;
       [ destruct terrain; discriminate
       | exists c; rewrite Hkind3; now rewrite Hk ]
     | exact Hcur
     | exists ctw; split; [across_writes; across_writes_in Htwist; exact Htwist | exact Hsub]
     | apply Hranges; assumption ]).
Qed.

(** C9.  For either value of [play], [bxi_elf3_flat_env_cfg] returns the
    configuration of [bxi_elf3_rough_env_cfg] changed only in [sim.njmax],
    [sim.mujoco.ccd_iterations], [sim.contact_sensor_maxmatch],
    [sim.nconmax], [scene.terrain.terrain_type] (set to "plane"),
    [scene.terrain.terrain_generator] (set to [None]), the removed
    "terrain_levels" curriculum entry and, in play mode, the twist command's
    [lin_vel_x] and [ang_vel_z] ranges; everything else reads as in the rough
    configuration.  The configuration [make_velocity_env_cfg] returns is a
    parameter; [flat_ready] is what the flat function asserts of it. *)
Theorem bxi_elf3_flat_env_cfg_frame {classes : Classes}
    make_velocity_env_cfg play cfgR :
  bxi_elf3_rough_env_cfg make_velocity_env_cfg play = Ok cfgR ->
  flat_ready play cfgR ->
  exists cfgF,
    bxi_elf3_flat_env_cfg make_velocity_env_cfg play = Ok cfgF /\
    flat_frame play cfgR cfgF /\
    flat_written play cfgR cfgF.
Proof.
  intros Hrough Hready.
  apply flat_after_rough; [|exact Hrough].
  exact (rough_provides _ _ _ Hrough Hready).
Qed.

Lemma bxi_elf3_flat_env_cfg_frame_example :
  example_rough_env_cfg (example_velocity_env_cfg example_terrain) true
  = Ok example_rough_play /\
  flat_ready true example_rough_play /\
  exists cfgF,
    example_flat_env_cfg (example_velocity_env_cfg example_terrain) true = Ok cfgF /\
    flat_frame true example_rough_play cfgF /\
    flat_written true example_rough_play cfgF.
Proof.
  assert (example_rough_env_cfg (example_velocity_env_cfg example_terrain) true
          = Ok example_rough_play) as Hrough by (vm_compute; reflexivity).
  assert (flat_ready true example_rough_play) as Hready.
  { unfold flat_ready. repeat split.
    - let v := eval vm_compute in
        (get_path [Attr "scene"; Attr "terrain"] example_rough_play) in
      match v with Ok ?t => exists t end.
      split; vm_compute; reflexivity.
    - let v := eval vm_compute in (getattr "curriculum" example_rough_play) in
      match v with Ok (VDict ?es) => exists es end.
      split; vm_compute; reflexivity.
    - intros _. exists "Ranges". vm_compute. reflexivity. }
  split; [exact Hrough|]. split; [exact Hready|].
  exact (bxi_elf3_flat_env_cfg_frame _ true _ Hrough Hready).
Defined.

(** Without a terrain the rough configuration is still built, and the flat
    one stops at its first assertion. *)
Example bxi_elf3_flat_env_cfg_needs_terrain :
  raises (example_rough_env_cfg (example_velocity_env_cfg VNone) false) = false /\
  example_flat_env_cfg (example_velocity_env_cfg VNone) false = Raise AssertionError.
Proof. split; vm_compute; reflexivity. Qed.

(** * Further properties of the action-scale loop *)

Lemma action_scale_names_returns_iff names e s d :
  (exists d', action_scale_names names e s d = Ok d')
  <-> names = [] \/ (s =? 0) = false.
Proof.
  split.
  - intros [d' H]. destruct names as [|n names]; [now left|]. right.
    simpl in H. apply bind_Ok in H. destruct H as (v & Hv & _).
    now apply truediv_Ok in Hv.
  - intros [-> | Hs]; [now exists d|].
    eexists. now apply action_scale_names_total.
Qed.

Lemma action_scale_names_zero n names e s d :
  (s =? 0) = true -> action_scale_names (n :: names) e s d = Raise ZeroDivisionError.
Proof. intros Hs. simpl. unfold PyFloat.truediv. now rewrite Hs. Qed.

Lemma loop_passes_step c e d :
  effort_limit c = Some e ->
  target_names_expr c = [] \/ (stiffness c =? 0) = false ->
  action_scale_names (target_names_expr c) e (stiffness c) d
  = Ok (apply_writes
          (map (fun n => (n, 0.25 * e / stiffness c)) (target_names_expr c)) d).
Proof.
  intros _ [Hn | Hs]; [now rewrite Hn | now apply action_scale_names_total].
Qed.

(** Over a list the loop passes throughout, it makes the writes of
    [writes]. *)
Lemma action_scale_loop_passes acts :
  Forall loop_passes acts ->
  forall d, action_scale_loop acts d = Ok (apply_writes (writes acts) d).
Proof.
  induction 1 as [|a acts Ha _ IH]; intros d; simpl; [reflexivity|].
  destruct Ha as (c & e & -> & He & Hs). rewrite He.
  rewrite (loop_passes_step c e d He Hs). simpl.
  now rewrite IH, apply_writes_app.
Qed.

(** X1.  The loop returns exactly when every actuator of the list is a
    position actuator with an effort limit whose stiffness is not zero, a
    zero stiffness being let through only for an actuator that targets no
    name; what the table held before plays no part. *)
Theorem action_scale_loop_returns_iff acts d0 :
  (exists d, action_scale_loop acts d0 = Ok d) <-> Forall loop_passes acts.
Proof.
  split.
  - intros [d H]. revert d0 H.
    induction acts as [|a acts IH]; intros d0 H; [constructor|].
    simpl in H. destruct a as [c|]; [|discriminate].
    destruct (effort_limit c) as [e|] eqn:He; [|discriminate].
    apply bind_Ok in H. destruct H as (d1 & Hnames & H).
    constructor; [|exact (IH _ H)].
    exists c, e. repeat split; [exact He|].
    apply (action_scale_names_returns_iff _ e _ d0). now exists d1.
  - intros H. eexists. now apply action_scale_loop_passes.
Qed.

(** X2.  The loop stops with AssertionError at the first actuator that is
    not a [BuiltinPositionActuatorCfg] or has no effort limit, whatever
    follows it in the list. *)
Theorem action_scale_loop_assertion pre a post d0 :
  Forall loop_passes pre ->
  fails_assertion a ->
  action_scale_loop (pre ++ a :: post)%list d0 = Raise AssertionError.
Proof.
  intros Hpre Ha. revert d0.
  induction Hpre as [|b pre Hb _ IH]; intros d0; simpl.
  - destruct a as [c|]; [|reflexivity]. simpl in Ha. now rewrite Ha.
  - destruct Hb as (c & e & -> & He & Hs). rewrite He.
    rewrite (loop_passes_step c e d0 He Hs). simpl. apply IH.
Qed.

Lemma action_scale_loop_assertion_example :
  let ok := BuiltinPosition (mkBuiltinPositionActuatorCfg ["j"] 2 0 (Some (Float 8)) 0) in
  let no_limit := BuiltinPosition (mkBuiltinPositionActuatorCfg ["k"] 2 0 None 0) in
  Forall loop_passes [ok] /\ fails_assertion no_limit /\
  action_scale_loop ([ok] ++ no_limit :: [ok])%list [] = Raise AssertionError.
Proof.
  intros ok no_limit.
  assert (Forall loop_passes [ok]) as Hpre.
  { repeat constructor. eexists _, _.
    split; [reflexivity | split; [reflexivity | right]].
    vm_compute. reflexivity. }
  assert (fails_assertion no_limit) as Hno by reflexivity.
  split; [exact Hpre|]. split; [exact Hno|].
  exact (action_scale_loop_assertion [ok] no_limit [ok] [] Hpre Hno).
Defined.

(** X3.  The loop stops with ZeroDivisionError at the first actuator that
    passes both assertions, targets at least one name and has a stiffness
    equal to zero (of either sign). *)
Theorem action_scale_loop_zero_stiffness pre a post d0 :
  Forall loop_passes pre ->
  divides_by_zero a ->
  action_scale_loop (pre ++ a :: post)%list d0 = Raise ZeroDivisionError.
Proof.
  intros Hpre (c & e & -> & He & Hnames & Hs). revert d0.
  induction Hpre as [|b pre Hb _ IH]; intros d0; simpl.
  - rewrite He. destruct (target_names_expr c) as [|n names]; [contradiction|].
    now rewrite (action_scale_names_zero n names e _ d0 Hs).
  - destruct Hb as (c' & e' & -> & He' & Hs'). rewrite He'.
    rewrite (loop_passes_step c' e' d0 He' Hs'). simpl. apply IH.
Qed.

Lemma action_scale_loop_zero_stiffness_example :
  let ok := BuiltinPosition (mkBuiltinPositionActuatorCfg ["j"] 2 0 (Some (Float 8)) 0) in
  let slack := BuiltinPosition (mkBuiltinPositionActuatorCfg ["k"] (-0) 0 (Some (Float 8)) 0) in
  Forall loop_passes [ok] /\ divides_by_zero slack /\
  action_scale_loop ([ok] ++ slack :: [])%list [] = Raise ZeroDivisionError.
Proof.
  intros ok slack.
  assert (Forall loop_passes [ok]) as Hpre.
  { repeat constructor. eexists _, _.
    split; [reflexivity | split; [reflexivity | right]].
    vm_compute. reflexivity. }
  assert (divides_by_zero slack) as Hz.
  { eexists _, _.
    split; [reflexivity | split; [reflexivity | split; [discriminate|]]].
    vm_compute. reflexivity. }
  split; [exact Hpre|]. split; [exact Hz|].
  exact (action_scale_loop_zero_stiffness [ok] slack [] [] Hpre Hz).
Defined.

Lemma writes_keys_incl acts n :
  In n (map fst (writes acts)) -> In n (target_names acts).
Proof.
  unfold writes, target_names. induction acts as [|a acts IH]; simpl; [tauto|].
  rewrite map_app, !in_app_iff. intros [H|H]; [left | right; auto].
  destruct a as [c|]; [|destruct H].
  destruct (effort_limit c); [|destruct H].
  rewrite map_map in H. simpl in H. now rewrite map_id in H.
Qed.

(** X4.  The last binding wins: in a run that returns, the entry of a name
    is the scale of the last actuator of the list that targets it, however
    many earlier ones targeted it too. *)
Theorem action_scale_loop_last_binding pre c e post d0 d n :
  action_scale_loop (pre ++ BuiltinPosition c :: post)%list d0 = Ok d ->
  effort_limit c = Some e ->
  In n (target_names_expr c) ->
  ~ In n (target_names post) ->
  dict_get n d = Some (0.25 * e / stiffness c).
Proof.
  intros Hrun He Hn Hpost.
  pose proof (action_scale_loop_writes _ _ _ Hrun d0) as Hw.
  rewrite Hrun in Hw. injection Hw as ->.
  unfold writes. rewrite flat_map_app. simpl. rewrite He.
  fold (writes pre). fold (writes post).
  rewrite !apply_writes_app.
  rewrite dict_get_apply_writes.
  rewrite last_write_None
    by (intros H; apply Hpost; now apply writes_keys_incl).
  rewrite dict_get_apply_writes.
  remember (map (fun n0 => (n0, 0.25 * e / stiffness c)) (target_names_expr c)) as ws.
  assert (last_write n ws = Some (0.25 * e / stiffness c)) as ->; [|reflexivity].
  subst ws. clear -Hn. induction (target_names_expr c) as [|m names IH]; [destruct Hn|].
  simpl. destruct (in_dec string_dec n names) as [Hin|Hnot].
  - now rewrite (IH Hin).
  - destruct Hn as [-> | Hin]; [|contradiction].
    rewrite last_write_None.
    + now rewrite String.eqb_refl.
    + rewrite map_map. simpl. now rewrite map_id.
Qed.

Lemma action_scale_loop_last_binding_example :
  let c1 := mkBuiltinPositionActuatorCfg [".*_wrist_.*"; "l_wrist_x"] 2 0 (Some (Float 8)) 0 in
  let c2 := mkBuiltinPositionActuatorCfg ["l_wrist_x"] 4 0 (Some (Int 8)) 0 in
  let d := [(".*_wrist_.*", 1); ("l_wrist_x", 0.5)] in
  action_scale_loop ([BuiltinPosition c1] ++ BuiltinPosition c2 :: [])%list [] = Ok d /\
  dict_get "l_wrist_x" d = Some (0.25 * 8 / stiffness c2).
Proof.
  intros c1 c2 d.
  assert (action_scale_loop ([BuiltinPosition c1] ++ BuiltinPosition c2 :: [])%list []
          = Ok d) as Hrun by (vm_compute; reflexivity).
  split; [exact Hrun|].
  apply (action_scale_loop_last_binding
           [BuiltinPosition c1] c2 (Int 8) [] [] d "l_wrist_x" Hrun).
  - reflexivity.
  - simpl. tauto.
  - simpl. tauto.
Defined.

(** X5.  The loop leaves alone what it does not target: a name that no
    actuator of the list targets has, after a run that returns, the entry
    it had in the table the run started from, or none if it had none. *)
Theorem action_scale_loop_untargeted acts d0 d n :
  action_scale_loop acts d0 = Ok d ->
  ~ In n (target_names acts) ->
  dict_get n d = dict_get n d0.
Proof.
  intros Hrun Hn.
  pose proof (action_scale_loop_writes _ _ _ Hrun d0) as Hw.
  rewrite Hrun in Hw. injection Hw as ->.
  rewrite dict_get_apply_writes.
  now rewrite last_write_None
    by (intros H; apply Hn; now apply writes_keys_incl).
Qed.

Lemma action_scale_loop_untargeted_ELF3 :
  action_scale_loop (actuators ELF3_ARTICULATION_NEW) [("head_joint", 1)]
  = Ok (("head_joint", 1) :: ELF3_ACTION_SCALE) /\
  dict_get "head_joint" (("head_joint", 1) :: ELF3_ACTION_SCALE)
  = dict_get "head_joint" [("head_joint", 1)].
Proof.
  assert (action_scale_loop (actuators ELF3_ARTICULATION_NEW) [("head_joint", 1)]
          = Ok (("head_joint", 1) :: ELF3_ACTION_SCALE)) as Hrun
    by (vm_compute; reflexivity).
  split; [exact Hrun|].
  apply (action_scale_loop_untargeted _ _ _ "head_joint" Hrun).
  rewrite ELF3_target_names. intros H. apply existsb_eqb_In in H.
  vm_compute in H. discriminate.
Defined.

(** * Further properties of the two configuration functions *)

Lemma get_path_app p q o :
  get_path (p ++ q)%list o = x <- get_path p o ;; get_path q x.
Proof.
  revert o. induction p as [|a p IH]; intros o; simpl; [reflexivity|].
  destruct (get_step a o) as [x|e]; simpl; [apply IH | reflexivity].
Qed.

Lemma tag_at_none q o : tag_at q o = Ok TNone -> get_path q o = Ok VNone.
Proof.
  unfold tag_at. intros H. apply bind_Ok in H. destruct H as (x & Hx & Htag).
  destruct x; try discriminate. exact Hx.
Qed.

Lemma tag_at_dict q o :
  tag_at q o = Ok TDict -> exists entries, get_path q o = Ok (VDict entries).
Proof.
  unfold tag_at. intros H. apply bind_Ok in H. destruct H as (x & Hx & Htag).
  destruct x; try discriminate. now exists entries.
Qed.

Lemma tag_at_read q o x : get_path q o = Ok x -> tag_at q o = Ok (tag_of x).
Proof. unfold tag_at. now intros ->. Qed.

(** What is read through [.name] hangs on an object, what is read through
    [[key]] on a dict. *)
Lemma tag_at_below_object p name rest o t :
  tag_at (p ++ Attr name :: rest)%list o = Ok t -> obj_at p o.
Proof.
  unfold tag_at. intros H. apply bind_Ok in H. destruct H as (v & Hv & _).
  exact (get_path_below_object _ _ _ _ _ Hv).
Qed.

Lemma tag_at_below_dict p key rest o t :
  tag_at (p ++ Item key :: rest)%list o = Ok t -> tag_at p o = Ok TDict.
Proof.
  unfold tag_at. intros H. apply bind_Ok in H. destruct H as (v & Hv & _).
  rewrite get_path_app in Hv. apply bind_Ok in Hv. destruct Hv as (x & Hx & Hv).
  rewrite Hx. simpl in *. apply bind_Ok in Hv. destruct Hv as (y & Hy & _).
  destruct x; simpl in Hy; try discriminate. reflexivity.
Qed.

Lemma update_path_needs p f o o' :
  update_path p f o = Ok o' -> exists x x', get_path p o = Ok x /\ f x = Ok x'.
Proof.
  revert o o'. induction p as [|a p IH]; intros o o' H; simpl in *.
  - now exists o, o'.
  - apply bind_Ok in H. destruct H as (x & Hx & H).
    apply bind_Ok in H. destruct H as (x' & Hx' & _).
    rewrite Hx. simpl. exact (IH _ _ Hx').
Qed.

Lemma assign_attr_needs p name v o o' :
  assign p (Attr name) v o = Ok o' -> obj_at p o.
Proof.
  intros H. apply update_path_needs in H. destruct H as (x & x' & Hx & Hset).
  destruct x; simpl in Hset; try discriminate.
  exists class_name. unfold tag_at. now rewrite Hx.
Qed.

Lemma assign_item_needs p key v o o' :
  assign p (Item key) v o = Ok o' -> tag_at p o = Ok TDict.
Proof.
  intros H. apply update_path_needs in H. destruct H as (x & x' & Hx & Hset).
  destruct x; simpl in Hset; try discriminate.
  unfold tag_at. now rewrite Hx.
Qed.

Lemma pop_or_none_needs p key o o' :
  update_path p (pop_or_none key) o = Ok o' -> tag_at p o = Ok TDict.
Proof.
  intros H. apply update_path_needs in H. destruct H as (x & x' & Hx & Hset).
  destruct x; simpl in Hset; try discriminate.
  unfold tag_at. now rewrite Hx.
Qed.

Lemma assign_item_returns p key v o :
  tag_at p o = Ok TDict -> exists o', assign p (Item key) v o = Ok o'.
Proof.
  intros H. apply tag_at_dict in H. destruct H as [entries Hx].
  exact (update_path_returns p _ o _ (VDict (dict_set key v entries)) Hx eq_refl).
Qed.

Lemma pop_or_none_returns p key o :
  tag_at p o = Ok TDict -> exists o', update_path p (pop_or_none key) o = Ok o'.
Proof.
  intros H. apply tag_at_dict in H. destruct H as [entries Hx].
  exact (update_path_returns p _ o _ (VDict (dict_remove key entries)) Hx eq_refl).
Qed.

(** An object is an instance of its own class, whatever derives from
    what. *)
Lemma isinstance_own_class {classes : Classes} c attrs :
  isinstance (VObj c attrs) c = true.
Proof. unfold isinstance, issubclass. now rewrite String.eqb_refl. Qed.

(** A constructor call leaves each keyword argument in the attribute of its
    name. *)
Lemma construct_getattr {classes : Classes} cls kwargs name v :
  last_write name kwargs = Some v -> getattr name (construct cls kwargs) = Ok v.
Proof.
  intros H. unfold construct, getattr.
  change (fold_left (fun attrs kv => dict_set (fst kv) (snd kv) attrs) kwargs
            (defaults cls))
    with (apply_writes kwargs (defaults cls)).
  now rewrite dict_get_apply_writes, H.
Qed.

Lemma read_generator cfg tg :
  get_path generator_path cfg = Ok tg ->
  exists c attrs,
    get_path [Attr "scene"; Attr "terrain"] cfg = Ok (VObj c attrs) /\
    getattr "terrain_generator" (VObj c attrs) = Ok tg.
Proof.
  change generator_path with (terrain_path ++ [Attr "terrain_generator"])%list.
  rewrite get_path_app. intros H. apply bind_Ok in H. destruct H as (t & Ht & H).
  rewrite get_path_single in H. simpl in H.
  destruct t; simpl in H; try discriminate. now exists class_name, attrs.
Qed.


(** A kind needed of the current configuration, from the kinds known of an
    earlier one. *)
Ltac have_tag := across_writes; first [eassumption | eexists; eassumption].

Ltac run_item_assign :=
  match goal with
  | |- context [bind (assign ?p (Item ?k) ?v ?a) _] =>
      let H := fresh "H" in
      let b := fresh "cfg" in
      let E := fresh "E" in
      assert (tag_at p a = Ok TDict) as H by have_tag;
      destruct (assign_item_returns p k v a H) as [b E];
      rewrite E; cbn [bind]; clear H
  end.

Ltac run_pop :=
  match goal with
  | |- context [bind (update_path ?p (pop_or_none ?k) ?a) _] =>
      let H := fresh "H" in
      let b := fresh "cfg" in
      let E := fresh "E" in
      assert (tag_at p a = Ok TDict) as H by have_tag;
      destruct (pop_or_none_returns p k a H) as [b E];
      rewrite E; cbn [bind]; clear H
  end.

(** The guard on the terrain generator, in whichever of its three ways the
    context decides. *)
Ltac run_guard :=
  match goal with
  | |- context [bind (get_path [Attr "scene"; Attr "terrain"] ?a) _] =>
      first
        [ let H := fresh "H" in
          assert (get_path [Attr "scene"; Attr "terrain"] a = Ok VNone) as H
            by (apply tag_at_none; have_tag);
          rewrite H; cbn [bind is_none]; clear H
        | let H := fresh "H" in
          let c := fresh "c" in
          let attrs := fresh "attrs" in
          let Ht := fresh "Ht" in
          let Hg := fresh "Hg" in
          assert (get_path generator_path a = Ok VNone) as H
            by (apply tag_at_none; unfold generator_path; have_tag);
          destruct (read_generator _ _ H) as (c & attrs & Ht & Hg);
          rewrite Ht; cbn [bind is_none]; rewrite Hg; cbn [bind is_none];
          clear H c attrs Ht Hg
        | let H := fresh "H" in
          let cg := fresh "cg" in
          let gattrs := fresh "gattrs" in
          let c := fresh "c" in
          let attrs := fresh "attrs" in
          let Ht := fresh "Ht" in
          let Hg := fresh "Hg" in
          assert (exists cg, tag_at generator_path a = Ok (TObj cg)) as [cg H]
            by (unfold generator_path; have_tag);
          apply tag_at_obj in H; destruct H as [gattrs H];
          destruct (read_generator _ _ H) as (c & attrs & Ht & Hg);
          rewrite Ht; cbn [bind is_none]; rewrite Hg; cbn [bind is_none];
          clear H c attrs Ht Hg ]
  end.

(** A read followed by [assert isinstance], for a class the context knows
    to stand there. *)
Ltac run_class_read :=
  match goal with
  | |- context [bind (get_path ?p ?a) _] =>
      match goal with
      | K : tag_at p _ = Ok (TObj ?c), S : issubclass ?c _ = true |- _ =>
          let H := fresh "H" in
          let attrs := fresh "attrs" in
          assert (tag_at p a = Ok (TObj c)) as H by (across_writes; exact K);
          apply tag_at_obj in H; destruct H as [attrs H];
          rewrite H; cbn [bind isinstance]; rewrite S; cbn [assert bind];
          clear H attrs
      end
  end.

Ltac run_closed_getattr :=
  match goal with
  | |- context [bind (getattr ?n (construct ?c ?kwargs)) _] =>
      rewrite (construct_getattr c kwargs n _ eq_refl); cbn [bind]
  end.

Ltac run_last_assign :=
  match goal with
  | |- exists o', assign ?p (Attr ?n) ?v ?a = Ok o' =>
      let c := fresh "c" in
      let H := fresh "H" in
      assert (exists c, tag_at p a = Ok (TObj c)) as [c H] by have_tag;
      exact (assign_attr_returns p n v a c H)
  | |- exists o', Ok ?a = Ok o' => now exists a
  end.

Ltac run_rough :=
  repeat first [ run_assign | run_item_assign | run_pop | run_guard
               | run_class_read | run_closed_getattr ];
  run_last_assign.

(** The rough configuration is built from every configuration that has
    what [rough_ready] lists. *)
Lemma rough_returns {classes : Classes} play base :
  rough_ready play base -> exists cfgR, bxi_elf3_rough_env_cfg base play = Ok cfgR.
Proof.
  unfold rough_ready, asset_cfg_of, terrain_path, generator_path.
  intros (Hmujoco & Hscene & Hterrain & (cj & Hjoint & Hjoint_class) & Hviewer
          & (ct & Htwist & Htwist_class) & Hviz & Hcritic
          & Hfriction & Hcom & Hpose & Hupright & Hangvel & Hclear & Hswing & Hslip
          & Hmomentum & Hair & Hpolicy).
  (* the containers on the way to those *)
  pose proof (tag_at_below_object [] "scene" [] base) as Hroot.
  destruct Hscene as [cs Hscene']. specialize (Hroot _ Hscene').
  destruct Hmujoco as [cm Hmujoco'].
  pose proof (tag_at_below_object [Attr "sim"] "mujoco" [] base _ Hmujoco') as Hsim.
  pose proof (tag_at_below_dict [Attr "rewards"] "pose" [Attr "params"] base _ Hpose)
    as Hrewards.
  destruct Hangvel as [ca Hangvel'].
  pose proof (tag_at_below_object [Attr "rewards"; Item "body_ang_vel"] "params"
                [Item "asset_cfg"] base _ Hangvel') as Hangvel_term.
  destruct Hfriction as [cf Hfriction'].
  pose proof (tag_at_below_dict [Attr "events"] "foot_friction"
                [Attr "params"; Item "asset_cfg"] base _ Hfriction') as Hevents.
  unfold bxi_elf3_rough_env_cfg. cbv zeta. cbn [set_reward_site_names].
  destruct play;
    [ specialize (Hpolicy eq_refl) | clear Hpolicy ];
    destruct Hterrain as [Hterrain | [Hterrain | Hterrain]];
    run_rough.
Qed.

Lemma no_generator_without_terrain cfg :
  tag_at terrain_path cfg = Ok TNone -> ~ obj_at generator_path cfg.
Proof.
  intros H [c Hg]. apply tag_at_none in H. apply tag_at_obj in Hg.
  destruct Hg as [attrs Hg]. destruct (read_generator _ _ Hg) as (c' & a' & Ht & _).
  unfold terrain_path in H. congruence.
Qed.

(** What a run of the guard that returns has found and done: no terrain
    or no generator and nothing done, or a generator and the body run. *)
Lemma terrain_guard_cases cfg terrain (body : result PyVal) cfg' :
  get_path [Attr "scene"; Attr "terrain"] cfg = Ok terrain ->
  (if is_none terrain then Ok cfg
   else
     terrain_generator <- getattr "terrain_generator" terrain ;;
     if is_none terrain_generator then Ok cfg else body) = Ok cfg' ->
  ((tag_at terrain_path cfg = Ok TNone \/ tag_at generator_path cfg = Ok TNone)
   /\ cfg' = cfg) \/
  (exists t, tag_at generator_path cfg = Ok t /\ t <> TNone /\ body = Ok cfg').
Proof.
  intros Hread H. destruct (is_none terrain) eqn:Hnone.
  - left. injection H as <-. split; [left|reflexivity].
    destruct terrain; try discriminate. exact (tag_at_read _ _ _ Hread).
  - apply bind_Ok in H. destruct H as (tg & Htg & H).
    assert (get_path generator_path cfg = Ok tg) as Hgen.
    { change generator_path with (terrain_path ++ [Attr "terrain_generator"])%list.
      rewrite get_path_app. unfold terrain_path. rewrite Hread. simpl.
      now rewrite Htg. }
    destruct (is_none tg) eqn:Hn.
    + left. injection H as <-. split; [right|reflexivity].
      destruct tg; try discriminate. exact (tag_at_read _ _ _ Hgen).
    + right. exists (tag_of tg). split; [exact (tag_at_read _ _ _ Hgen)|].
      split; [|exact H]. destruct tg; discriminate.
Qed.

Lemma read_class {classes : Classes} p cfg x cls u :
  get_path p cfg = Ok x -> assert (isinstance x cls) = Ok u ->
  exists c, tag_at p cfg = Ok (TObj c) /\ issubclass c cls = true.
Proof.
  intros Hread Hassert.
  destruct (assert_isinstance _ _ _ Hassert) as (c & attrs & -> & Hsub).
  exists c. split; [exact (tag_at_read _ _ _ Hread) | exact Hsub].
Qed.

(** Take a run of [bxi_elf3_rough_env_cfg] that returned apart: one
    hypothesis per statement, one goal per way through its two guards. *)
Ltac invert_rough H :=
  unfold bxi_elf3_rough_env_cfg in H; cbv zeta in H;
  cbn [set_reward_site_names] in H;
  invert_binds H;
  repeat match goal with
         | E : bind _ _ = Ok _ |- _ => invert_binds E
         | E : Ok _ = Ok _ |- _ => injection E as <-
         end;
  match type of H with
  | (if ?play then _ else _) = Ok _ =>
      destruct play; [invert_binds H | injection H as <-]
  end;
  repeat match goal with
         | R : get_path [Attr "scene"; Attr "terrain"] ?cfg = Ok ?t,
           G : (if is_none ?t then Ok ?cfg else _) = Ok _ |- _ =>
             let Hk := fresh "Hkind" in
             let Hb := fresh "Hbody" in
             let t := fresh "t" in
             destruct (terrain_guard_cases _ _ _ _ R G)
               as [[Hk ->] | (t & Hk & ? & Hb)];
             clear G; [ | invert_binds Hb ]
         end;
  repeat match goal with
         | R : get_path ?p ?cfg = Ok ?x, A : assert (isinstance ?x ?cls) = Ok _ |- _ =>
             let c := fresh "c" in
             let Hc := fresh "Hclass" in
             let Hs := fresh "Hsub" in
             destruct (read_class _ _ _ _ _ R A) as (c & Hc & Hs); clear A
         | E : getattr ?n (construct ?c ?kwargs) = Ok _ |- _ =>
             rewrite (construct_getattr c kwargs n _ eq_refl) in E; injection E as <-
         end.

(** Carry every kind known of a later configuration back to the earliest
    one it holds of. *)
Ltac tags_to_base :=
  repeat match goal with
         | H : tag_at _ _ = _ |- _ => progress across_writes_in H
         end.

(** A kind the context knows of some configuration, carried back to the
    configuration the goal asks it of. *)
Ltac known_tag :=
  match goal with
  | H : tag_at ?p _ = Ok ?t |- tag_at ?p _ = Ok ?t => across_writes_in H; exact H
  end.

(** An instance the run asserted, carried back to the configuration the
    goal asks it of. *)
Ltac known_instance :=
  match goal with
  | H : tag_at ?p _ = Ok (TObj ?c), S : issubclass ?c ?cls = true
    |- instance_at ?p ?cls _ =>
      exists c; split; [across_writes_in H; exact H | exact S]
  end.

(** The object or dict a statement of the context assigned into was there
    to begin with. *)
Ltac needed_by_assign :=
  match goal with
  | E : assign ?p (Attr _) _ _ = Ok _ |- obj_at ?p _ =>
      let c := fresh "c" in
      let H := fresh "H" in
      destruct (assign_attr_needs _ _ _ _ _ E) as [c H];
      across_writes_in H; exists c; exact H
  | E : assign ?p (Item _) _ _ = Ok _ |- tag_at ?p _ = Ok TDict =>
      let H := fresh "H" in
      pose proof (assign_item_needs _ _ _ _ _ E) as H;
      across_writes_in H; exact H
  end.

(** The terrain clause of [rough_ready], from what a guard found. *)
Ltac terrain_found :=
  first
    [ right; right; needed_by_assign
    | match goal with
      | H : tag_at _ _ = Ok TNone \/ tag_at _ _ = Ok TNone |- _ =>
          destruct H as [H | H]; across_writes_in H;
          [ left; exact H | right; left; exact H ]
      end ].

(** Turn a hypothesis on every path of a list into one hypothesis per
    path. *)
Ltac split_listed Hq :=
  match type of Hq with
  | forall p, In p ?ps -> @?P p =>
      let F := fresh "F" in
      pose proof (proj2 (Forall_forall P ps) Hq) as F;
      cbv beta iota delta
        [rough_changed_paths rough_assignments rough_generator_assignments
         asset_cfg_of generator_path map fst app negb] in F;
      repeat match type of F with
             | Forall _ (_ :: _) =>
                 let H := fresh "Hw" in
                 pose proof (Forall_inv F) as H; cbv beta in H;
                 apply Forall_inv_tail in F
             end;
      clear F
  end.

(** [across_writes] for a path [q] that the context says parts ways with
    each written path (or is not at or below it). *)
Ltac across_listed_writes :=
  repeat match goal with
         | E : assign ?p ?l ?v ?a = Ok ?b |- context [tag_at ?q ?b] =>
             let w := eval cbv [app] in (p ++ [l])%list in
             match goal with
             | H : is_prefix w q = false |- _ =>
                 rewrite (update_path_tag p l _ a b q (set_step_local l v) E H)
             end
         | E : assign ?p ?l ?v ?a = Ok ?b |- context [get_path ?q ?b] =>
             let w := eval cbv [app] in (p ++ [l])%list in
             match goal with
             | H : diverge w q = true |- _ =>
                 rewrite (update_path_frame p l _ a b q (set_step_local l v) E H)
             end
         | E : update_path ?p (pop_or_none ?k) ?a = Ok ?b |- context [tag_at ?q ?b] =>
             let w := eval cbv [app] in (p ++ [Item k])%list in
             match goal with
             | H : is_prefix w q = false |- _ =>
                 rewrite (update_path_tag p (Item k) _ a b q (pop_or_none_local k) E H)
             end
         | E : update_path ?p (pop_or_none ?k) ?a = Ok ?b |- context [get_path ?q ?b] =>
             let w := eval cbv [app] in (p ++ [Item k])%list in
             match goal with
             | H : diverge w q = true |- _ =>
                 rewrite (update_path_frame p (Item k) _ a b q (pop_or_none_local k) E H)
             end
         end.

(** The goal reads back what the last assignment to its path wrote. *)
Ltac read_back :=
  across_writes;
  match goal with
  | E : assign _ _ _ _ = Ok ?b |- get_path _ ?b = _ => exact (assign_get _ _ _ _ _ E)
  end.

(** The two guards of one run cannot have found different terrains, nor a
    guard no generator where there is one. *)
Ltac guards_disagree :=
  exfalso;
  repeat match goal with
         | H : tag_at _ _ = Ok TNone \/ tag_at _ _ = Ok TNone |- _ => destruct H as [H | H]
         end;
  tags_to_base;
  repeat match goal with
         | H : obj_at _ _ |- _ => destruct H as [? H]; across_writes_in H
         end;
  first
    [ congruence
    | match goal with
      | H : tag_at [Attr "scene"; Attr "terrain"] ?o = Ok TNone,
        G : tag_at [Attr "scene"; Attr "terrain"; Attr "terrain_generator"] ?o = Ok _
        |- _ =>
          apply tag_at_none in H; unfold tag_at in G; apply bind_Ok in G;
          destruct G as (? & G & _);
          destruct (read_generator _ _ G) as (? & ? & ? & _); congruence
      end ].

Ltac unfold_path_lists :=
  cbv beta iota delta
    [rough_changed_paths rough_assignments rough_generator_assignments
     asset_cfg_of generator_path map fst app In negb].

Lemma rough_effect {classes : Classes} play base cfgR :
  bxi_elf3_rough_env_cfg base play = Ok cfgR ->
  rough_ready play base /\
  changed_only_at (rough_changed_paths play) base cfgR /\
  rough_written play base cfgR.
Proof.
  intros H. invert_rough H.
  all: unfold rough_ready, changed_only_at, rough_written,
         asset_cfg_of, terrain_path, generator_path in *.
  all: repeat match goal with
              | |- _ /\ _ => split
              | |- false = true -> _ => discriminate
              | |- true = true -> _ => intros _
              end.
  all: try first [ needed_by_assign | known_tag | known_instance | terrain_found ].
  all: try (intros q Hq; split_listed Hq; across_listed_writes; reflexivity).
  all: try (unfold_path_lists; repeat constructor; cbn [fst snd]; read_back).
  all: try (intros Hgen; unfold_path_lists; repeat constructor; cbn [fst snd];
            first [ read_back | guards_disagree ]).
  Qed.

(** Each clause of [rough_ready] or [flat_ready], read off a closed
    configuration. *)
Ltac ready_by_computation :=
  repeat match goal with
         | |- _ /\ _ => split
         | |- _ = true -> _ => intros _
         | |- obj_at _ _ => unfold obj_at
         | |- instance_at _ _ _ =>
             unfold instance_at; eexists; split; [cbv; reflexivity | vm_compute; reflexivity]
         | |- exists c, tag_at _ _ = Ok (TObj c) => eexists; cbv; reflexivity
         | |- tag_at _ _ = Ok _ => cbv; reflexivity
         | |- exists x, get_path _ _ = Ok x /\ _ =>
             eexists; split; [cbv; reflexivity | reflexivity]
         | |- exists x, getattr _ _ = Ok (VDict x) /\ _ =>
             eexists; split; [cbv; reflexivity | vm_compute; reflexivity]
         | |- _ \/ _ => first [ left; cbv; reflexivity | right ]
         end.

(** X6.  [bxi_elf3_rough_env_cfg] returns on every configuration that has
    what its statements read, assert and assign into: the objects and dicts
    on their paths, an instance of [JointPositionActionCfg] under
    [actions["joint_pos"]] and one of [UniformVelocityCommandCfg] under
    [commands["twist"]] (of the class itself or of a class that derives from
    it), and a terrain that is [None] or whose [terrain_generator] is [None]
    or an object. *)
Theorem bxi_elf3_rough_env_cfg_returns {classes : Classes}
    make_velocity_env_cfg play :
  rough_ready play make_velocity_env_cfg ->
  exists cfgR, bxi_elf3_rough_env_cfg make_velocity_env_cfg play = Ok cfgR.
Proof. apply rough_returns. Qed.

Lemma bxi_elf3_rough_env_cfg_returns_example :
  example_rough_ready true example_derived_twist_cfg /\
  tag_at [Attr "commands"; Item "twist"] example_derived_twist_cfg
  = Ok (TObj "Elf3VelocityCommandCfg") /\
  exists cfgR,
    example_rough_env_cfg example_derived_twist_cfg true
    = Ok cfgR.
Proof.
  assert (example_rough_ready true example_derived_twist_cfg)
    as Hready by (unfold rough_ready; ready_by_computation).
  split; [exact Hready|]. split; [vm_compute; reflexivity|].
  exact (bxi_elf3_rough_env_cfg_returns example_derived_twist_cfg true Hready).
Defined.

(** X7.  [bxi_elf3_rough_env_cfg] changes the configuration it starts from
    only at the paths it assigns or pops: what is read along any path that
    parts ways with all of them is the same before and after, and so is the
    kind and class of the value at any path not at or below one of them. *)
Theorem bxi_elf3_rough_env_cfg_frame {classes : Classes}
    make_velocity_env_cfg play cfgR :
  bxi_elf3_rough_env_cfg make_velocity_env_cfg play = Ok cfgR ->
  changed_only_at (rough_changed_paths play) make_velocity_env_cfg cfgR.
Proof.
  intros H. exact (proj1 (proj2 (rough_effect _ _ _ H))).
Qed.

Lemma example_rough_play_returned :
  example_rough_env_cfg (example_velocity_env_cfg example_terrain) true
  = Ok example_rough_play.
Proof. vm_compute. reflexivity. Qed.

Lemma bxi_elf3_rough_env_cfg_frame_example :
  example_rough_env_cfg (example_velocity_env_cfg example_terrain) true
  = Ok example_rough_play /\
  changed_only_at (example_rough_changed_paths true)
    (example_velocity_env_cfg example_terrain) example_rough_play.
Proof.
  split; [vm_compute; reflexivity|].
  apply (bxi_elf3_rough_env_cfg_frame (example_velocity_env_cfg example_terrain) true).
  vm_compute. reflexivity.
Defined.

(** A field the constructor call does not give is at the class's default,
    if the class has one for it. *)
Lemma construct_getattr_default {classes : Classes} cls kwargs name :
  last_write name kwargs = None ->
  getattr name (construct cls kwargs) = getattr name (VObj cls (defaults cls)).
Proof.
  intros H. unfold construct, getattr.
  change (fold_left (fun attrs kv => dict_set (fst kv) (snd kv) attrs) kwargs
            (defaults cls))
    with (apply_writes kwargs (defaults cls)).
  now rewrite dict_get_apply_writes, H.
Qed.

(** The robot configuration holds an effort limit as the source writes it:
    the int 90 for the waist pitch, the float 150.0 for the waist yaw. *)
Example value_of_actuator_effort_limit {classes : Classes} :
  getattr "effort_limit" (value_of_actuator (BuiltinPosition waist_y_joint))
  = Ok (VInt 90) /\
  getattr "effort_limit" (value_of_actuator (BuiltinPosition waist_z_joint))
  = Ok (VFloat 150.0).
Proof. split; apply construct_getattr; reflexivity. Qed.

(** The initial state of the robot has the position the source gives and,
    for its rotation, whatever the class defaults to. *)
Example KNEES_BENT_KEYFRAME_fields {classes : Classes} :
  getattr "pos" KNEES_BENT_KEYFRAME = Ok (VTuple [VInt 0; VInt 0; VFloat 1.1]) /\
  getattr "rot" KNEES_BENT_KEYFRAME
  = getattr "rot" (VObj "EntityCfg.InitialStateCfg"
                     (defaults "EntityCfg.InitialStateCfg")).
Proof.
  split; [apply construct_getattr | apply construct_getattr_default]; reflexivity.
Qed.



(** * The flat configuration, from the configuration it starts from *)

Lemma all_diverge_spec ps q :
  all_diverge ps q = true -> forall p, In p ps -> diverge p q = true.
Proof. unfold all_diverge. rewrite forallb_forall. auto. Qed.

Lemma none_above_spec ps q :
  none_above ps q = true -> forall p, In p ps -> is_prefix p q = false.
Proof.
  unfold none_above. rewrite forallb_forall. intros H p Hp.
  specialize (H p Hp). now destruct (is_prefix p q).
Qed.

(** What [bxi_elf3_rough_env_cfg] leaves as it found it, among the things
    [bxi_elf3_flat_env_cfg] goes on to use. *)
Lemma rough_keeps {classes : Classes} play base cfgR :
  bxi_elf3_rough_env_cfg base play = Ok cfgR ->
  tag_at terrain_path cfgR = tag_at terrain_path base /\
  get_path [Attr "curriculum"] cfgR = get_path [Attr "curriculum"] base /\
  tag_at [Attr "commands"; Item "twist"; Attr "ranges"] cfgR
  = tag_at [Attr "commands"; Item "twist"; Attr "ranges"] base /\
  tag_at [Attr "sim"] cfgR = tag_at [Attr "sim"] base /\
  tag_at [Attr "sim"; Attr "mujoco"] cfgR = tag_at [Attr "sim"; Attr "mujoco"] base /\
  tag_at [Attr "commands"; Item "twist"] cfgR
  = tag_at [Attr "commands"; Item "twist"] base.
Proof.
  intros H. destruct (proj1 (proj2 (rough_effect _ _ _ H))) as [Hread Htag].
  repeat split;
    first [ apply Htag; apply none_above_spec
          | apply Hread; apply all_diverge_spec ];
    destruct play; vm_compute; reflexivity.
Qed.

Lemma not_none_tag q o :
  (exists t, get_path q o = Ok t /\ is_none t = false)
  <-> (exists t, tag_at q o = Ok t /\ t <> TNone).
Proof.
  split.
  - intros (t & Ht & Hn). exists (tag_of t). split; [exact (tag_at_read _ _ _ Ht)|].
    destruct t; discriminate.
  - intros (tg & Ht & Hn). unfold tag_at in Ht. apply bind_Ok in Ht.
    destruct Ht as (t & Ht & Htg). exists t. split; [exact Ht|].
    destruct t; try reflexivity. injection Htg as <-. contradiction.
Qed.

Lemma flat_ready_of_base {classes : Classes} play base cfgR :
  bxi_elf3_rough_env_cfg base play = Ok cfgR ->
  flat_ready play cfgR <-> flat_ready play base.
Proof.
  intros H. destruct (rough_keeps _ _ _ H) as (Ht & Hc & Hr & _).
  unfold flat_ready. rewrite !not_none_tag.
  change (tag_at [Attr "scene"; Attr "terrain"]) with (tag_at terrain_path).
  rewrite Ht, Hr.
  change (getattr "curriculum" cfgR) with (get_step (Attr "curriculum") cfgR).
  change (getattr "curriculum" base) with (get_step (Attr "curriculum") base).
  rewrite <- !get_path_single, Hc. reflexivity.
Qed.

(** [across_writes_in] for reads as well as kinds, and across deletions. *)
Ltac back_in H :=
  repeat match type of H with
         | context [tag_at ?q ?b] =>
             match goal with
             | E : assign ?p ?l ?v ?a = Ok b |- _ =>
                 rewrite (update_path_tag p l _ a b q (set_step_local l v) E eq_refl) in H
             | E : update_path ?p (delitem ?k) ?a = Ok b |- _ =>
                 rewrite (update_path_tag p (Item k) _ a b q (delitem_local k) E eq_refl) in H
             end
         | context [get_path ?q ?b] =>
             match goal with
             | E : assign ?p ?l ?v ?a = Ok b |- _ =>
                 rewrite (update_path_frame p l _ a b q (set_step_local l v) E eq_refl) in H
             | E : update_path ?p (delitem ?k) ?a = Ok b |- _ =>
                 rewrite (update_path_frame p (Item k) _ a b q (delitem_local k) E eq_refl) in H
             end
         end.

Lemma assert_true b u : assert b = Ok u -> b = true.
Proof. destruct b; [reflexivity | discriminate]. Qed.

Lemma contains_Ok key d b :
  contains key d = Ok b -> exists entries, d = VDict entries /\ b = dict_mem key entries.
Proof.
  destruct d; simpl; try discriminate. intros [= <-]. now exists entries.
Qed.

(** A flat configuration was made from a rough one that had what the flat
    function asserts. *)
Lemma flat_returned_inv {classes : Classes} play base cfgF :
  bxi_elf3_flat_env_cfg base play = Ok cfgF ->
  exists cfgR,
    bxi_elf3_rough_env_cfg base play = Ok cfgR /\ flat_ready play cfgR.
Proof.
  intros H. unfold bxi_elf3_flat_env_cfg in H.
  apply bind_Ok in H. destruct H as (cfgR & Hrough & H).
  exists cfgR. split; [exact Hrough|]. cbv beta in H.
  invert_binds H.
  match goal with
  | R : get_path [Attr "scene"; Attr "terrain"] _ = Ok ?t,
    A : assert (negb (is_none ?t)) = Ok _,
    G : getattr "curriculum" ?c = Ok ?cur,
    C : contains "terrain_levels" ?cur = Ok ?has,
    A' : assert ?has = Ok _ |- _ =>
      apply assert_true in A; apply assert_true in A'; subst has;
      apply contains_Ok in C; destruct C as (entries & -> & Hmem);
      change (getattr "curriculum" c) with (get_step (Attr "curriculum") c) in G;
      rewrite <- get_path_single in G;
      back_in R; back_in G; rewrite get_path_single in G
  end.
  unfold flat_ready. repeat split.
  - match goal with
    | R : get_path [Attr "scene"; Attr "terrain"] cfgR = Ok ?t |- _ =>
        exists t; split; [exact R | now destruct (is_none t)]
    end.
  - match goal with
    | G : get_step (Attr "curriculum") cfgR = Ok (VDict ?es) |- _ =>
        exists es; split; [exact G | congruence]
    end.
  - intros ->. invert_binds H.
    match goal with
    | E : assign [Attr "commands"; Item "twist"; Attr "ranges"] (Attr "lin_vel_x") _ _ = Ok _
      |- _ =>
        destruct (assign_attr_needs _ _ _ _ _ E) as [c Hc]; back_in Hc;
        exists c; exact Hc
    end.
Qed.

(** X9.  [bxi_elf3_flat_env_cfg] returns on every configuration on which
    [bxi_elf3_rough_env_cfg] is shown to return ([rough_ready]) and which
    has a terrain that is not [None], a "terrain_levels" entry in
    [curriculum] and, in play mode, a [ranges] object in the twist
    command. *)
Theorem bxi_elf3_flat_env_cfg_returns {classes : Classes}
    make_velocity_env_cfg play :
  rough_ready play make_velocity_env_cfg ->
  flat_ready play make_velocity_env_cfg ->
  exists cfgF, bxi_elf3_flat_env_cfg make_velocity_env_cfg play = Ok cfgF.
Proof.
  intros Hrough Hready. destruct (rough_returns _ _ Hrough) as [cfgR HR].
  apply (flat_ready_of_base _ _ _ HR) in Hready.
  destruct (flat_after_rough play cfgR (rough_provides _ _ _ HR Hready) _ HR)
    as (cfgF & HF & _).
  now exists cfgF.
Qed.

Lemma bxi_elf3_flat_env_cfg_returns_example :
  example_rough_ready true example_derived_twist_cfg /\
  flat_ready true example_derived_twist_cfg /\
  exists cfgF,
    example_flat_env_cfg example_derived_twist_cfg true
    = Ok cfgF.
Proof.
  assert (example_rough_ready true example_derived_twist_cfg)
    as Hrough by (unfold rough_ready; ready_by_computation).
  assert (flat_ready true example_derived_twist_cfg) as Hready
    by (unfold flat_ready; ready_by_computation).
  split; [exact Hrough|]. split; [exact Hready|].
  exact (bxi_elf3_flat_env_cfg_returns example_derived_twist_cfg true Hrough Hready).
Defined.

(** The simulation objects of a returned rough configuration. *)
Lemma rough_sim_objects {classes : Classes} play base cfgR :
  bxi_elf3_rough_env_cfg base play = Ok cfgR ->
  obj_at [Attr "sim"] cfgR /\ obj_at [Attr "sim"; Attr "mujoco"] cfgR.
Proof.
  intros H. destruct (rough_keeps _ _ _ H) as (_ & _ & _ & Hsim & Hmujoco & _).
  destruct (proj1 (rough_effect _ _ _ H)) as ([c Hm] & _).
  unfold obj_at. rewrite Hsim, Hmujoco. split; [|now exists c].
  exact (tag_at_below_object [Attr "sim"] "mujoco" [] _ _ Hm).
Qed.

(** X10.  On a configuration without a terrain ([scene.terrain] is [None])
    that [bxi_elf3_rough_env_cfg] accepts, [bxi_elf3_flat_env_cfg] raises
    AssertionError: its first assertion fails. *)
Theorem bxi_elf3_flat_env_cfg_no_terrain {classes : Classes}
    make_velocity_env_cfg play :
  rough_ready play make_velocity_env_cfg ->
  tag_at terrain_path make_velocity_env_cfg = Ok TNone ->
  bxi_elf3_flat_env_cfg make_velocity_env_cfg play = Raise AssertionError.
Proof.
  intros Hready Hnone. destruct (rough_returns _ _ Hready) as [cfgR HR].
  destruct (rough_sim_objects _ _ _ HR) as ([cs Hsim] & [cm Hmujoco]).
  destruct (rough_keeps _ _ _ HR) as (Ht & _).
  rewrite <- Ht in Hnone. unfold terrain_path in Hnone.
  unfold bxi_elf3_flat_env_cfg. rewrite HR. cbn [bind].
  run_assign. run_assign. run_assign. run_assign.
  assert (get_path [Attr "scene"; Attr "terrain"] cfg2 = Ok VNone) as Hread
    by (apply tag_at_none; across_writes; exact Hnone).
  rewrite Hread. reflexivity.
Qed.

Lemma example_without_terrain_ready :
  example_rough_ready false (example_velocity_env_cfg VNone).
Proof.
  assert (exists cfgR,
            example_rough_env_cfg (example_velocity_env_cfg VNone) false = Ok cfgR)
    as [cfgR H] by (eexists; vm_compute; reflexivity).
  exact (proj1 (rough_effect _ _ _ H)).
Qed.

Lemma bxi_elf3_flat_env_cfg_no_terrain_example :
  example_rough_ready false (example_velocity_env_cfg VNone) /\
  tag_at terrain_path (example_velocity_env_cfg VNone) = Ok TNone /\
  example_flat_env_cfg (example_velocity_env_cfg VNone) false = Raise AssertionError.
Proof.
  assert (tag_at terrain_path (example_velocity_env_cfg VNone) = Ok TNone) as Hnone
    by (vm_compute; reflexivity).
  split; [exact example_without_terrain_ready|]. split; [exact Hnone|].
  exact (bxi_elf3_flat_env_cfg_no_terrain _ false example_without_terrain_ready Hnone).
Defined.

(** X11.  On a configuration with a terrain that [bxi_elf3_rough_env_cfg]
    accepts but whose [curriculum] dict has no "terrain_levels" entry,
    [bxi_elf3_flat_env_cfg] raises AssertionError, not the KeyError of the
    [del] that follows the assertion. *)
Theorem bxi_elf3_flat_env_cfg_no_terrain_levels {classes : Classes}
    make_velocity_env_cfg play entries :
  rough_ready play make_velocity_env_cfg ->
  (exists t, tag_at terrain_path make_velocity_env_cfg = Ok t /\ t <> TNone) ->
  getattr "curriculum" make_velocity_env_cfg = Ok (VDict entries) ->
  dict_mem "terrain_levels" entries = false ->
  bxi_elf3_flat_env_cfg make_velocity_env_cfg play = Raise AssertionError.
Proof.
  intros Hready (t & Htag & Hnot) Hcur Hmem.
  destruct (rough_returns _ _ Hready) as [cfgR HR].
  destruct (rough_sim_objects _ _ _ HR) as ([cs Hsim] & [cm Hmujoco]).
  destruct (rough_keeps _ _ _ HR) as (Ht & Hc & _).
  (* the terrain is an object: it is not None and its generator was read *)
  assert (obj_at terrain_path make_velocity_env_cfg) as [ct Hterrain].
  { destruct Hready as (_ & _ & [Hn | [Hg | [cg Hg]]] & _).
    - rewrite Hn in Htag. injection Htag as <-. contradiction.
    - exact (tag_at_below_object terrain_path "terrain_generator" [] _ _ Hg).
    - exact (tag_at_below_object terrain_path "terrain_generator" [] _ _ Hg). }
  rewrite <- Ht in Hterrain. unfold terrain_path in Hterrain.
  change (getattr "curriculum" make_velocity_env_cfg)
    with (get_step (Attr "curriculum") make_velocity_env_cfg) in Hcur.
  rewrite <- get_path_single, <- Hc in Hcur.
  unfold bxi_elf3_flat_env_cfg. rewrite HR. cbn [bind].
  run_assign. run_assign. run_assign. run_assign.
  assert (exists attrs,
            get_path [Attr "scene"; Attr "terrain"] cfg2 = Ok (VObj ct attrs))
    as [attrs Hread] by (apply tag_at_obj; across_writes; exact Hterrain).
  rewrite Hread. cbn [bind is_none negb assert]. clear attrs Hread.
  run_assign. run_assign.
  assert (get_path [Attr "curriculum"] cfg4 = Ok (VDict entries)) as Hcur4
    by (across_writes; exact Hcur).
  rewrite get_path_single in Hcur4. cbn [get_step] in Hcur4.
  rewrite Hcur4. cbn [bind contains]. rewrite Hmem. reflexivity.
Qed.

Lemma example_without_levels_ready : example_rough_ready true example_without_levels.
Proof.
  assert (exists cfgR, example_rough_env_cfg example_without_levels true = Ok cfgR)
    as [cfgR H] by (eexists; vm_compute; reflexivity).
  exact (proj1 (rough_effect _ _ _ H)).
Qed.

Lemma bxi_elf3_flat_env_cfg_no_terrain_levels_example :
  example_rough_ready true example_without_levels /\
  (exists t, tag_at terrain_path example_without_levels = Ok t /\ t <> TNone) /\
  getattr "curriculum" example_without_levels
  = Ok (VDict [("command_vel", example_term [])]) /\
  dict_mem "terrain_levels" [("command_vel", example_term [])] = false /\
  example_flat_env_cfg example_without_levels true = Raise AssertionError.
Proof.
  assert (exists t, tag_at terrain_path example_without_levels = Ok t /\ t <> TNone)
    as Hterrain.
  { exists (TObj "TerrainImporterCfg"). split; [vm_compute; reflexivity | discriminate]. }
  assert (getattr "curriculum" example_without_levels
          = Ok (VDict [("command_vel", example_term [])])) as Hcur
    by (vm_compute; reflexivity).
  assert (dict_mem "terrain_levels" [("command_vel", example_term [])] = false) as Hmem
    by (vm_compute; reflexivity).
  split; [exact example_without_levels_ready|]. split; [exact Hterrain|].
  split; [exact Hcur|]. split; [exact Hmem|].
  exact (bxi_elf3_flat_env_cfg_no_terrain_levels _ true _
           example_without_levels_ready Hterrain Hcur Hmem).
Defined.

(** ** The action scale, end to end *)






(** ** The flat configuration against the one it all starts from *)

Lemma changed_only_trans ps1 ps2 a b c :
  changed_only_at ps1 a b -> changed_only_at ps2 b c ->
  changed_only_at (ps1 ++ ps2)%list a c.
Proof.
  intros [Hr1 Ht1] [Hr2 Ht2]. split; intros q Hq.
  - rewrite Hr2, Hr1; [reflexivity | |]; intros p Hp; apply Hq, in_app_iff; auto.
  - rewrite Ht2, Ht1; [reflexivity | |]; intros p Hp; apply Hq, in_app_iff; auto.
Qed.

(** X13.  The two functions compose: the configuration
    [bxi_elf3_flat_env_cfg] returns differs from the one
    [make_velocity_env_cfg] returned only at the paths the rough function
    writes and the paths the flat function writes; every other path reads
    the same value, and holds a value of the same kind and class. *)
Theorem bxi_elf3_flat_env_cfg_frame_from_base {classes : Classes}
    make_velocity_env_cfg play cfgF :
  bxi_elf3_flat_env_cfg make_velocity_env_cfg play = Ok cfgF ->
  changed_only_at (rough_changed_paths play ++ flat_changed_paths play)%list
    make_velocity_env_cfg cfgF.
Proof.
  intros H. destruct (flat_returned_inv _ _ _ H) as (cfgR & HR & Hready).
  destruct (flat_after_rough play cfgR (rough_provides _ _ _ HR Hready) _ HR)
    as (cfgF' & HF & Hframe & _).
  rewrite H in HF. injection HF as <-.
  apply (changed_only_trans _ _ _ cfgR).
  - exact (proj1 (proj2 (rough_effect _ _ _ HR))).
  - exact Hframe.
Qed.

Lemma bxi_elf3_flat_env_cfg_frame_from_base_example :
  let base := example_velocity_env_cfg example_terrain in
  let cfgF := returned (example_flat_env_cfg base false) VNone in
  example_flat_env_cfg base false = Ok cfgF /\
  changed_only_at (example_rough_changed_paths false ++ flat_changed_paths false)%list
    base cfgF.
Proof.
  intros base cfgF.
  assert (example_flat_env_cfg base false = Ok cfgF) as H by (vm_compute; reflexivity).
  split; [exact H|].
  exact (bxi_elf3_flat_env_cfg_frame_from_base base false cfgF H).
Defined.

(** * The terms of the two configurations *)




















(** * Play mode against training *)

(** The play configuration is the training configuration with the
    play-mode overrides applied. *)
Lemma rough_play_split {classes : Classes} base :
  bxi_elf3_rough_env_cfg base true
  = (cfg <- bxi_elf3_rough_env_cfg base false ;; play_overrides cfg).
Proof.
  unfold bxi_elf3_rough_env_cfg. cbv zeta.
  repeat match goal with
         | |- bind ?c _ = bind (bind ?c _) _ =>
             destruct c; cbn [bind]; [|reflexivity]
         end.
  reflexivity.
Qed.

(** X16.  Play mode against training: when [bxi_elf3_rough_env_cfg]
    returns in play mode it returns in training mode too, on the same
    configuration to start from, and the two results differ only in the
    episode length, the policy observations' corruption flag, the
    "push_robot" and "randomize_terrain" events and the generator's
    curriculum flag and grid: every path that parts ways with these reads
    the same value in both, and every path not at or below one of them holds
    a value of the same kind and class. *)
Theorem bxi_elf3_rough_env_cfg_play_against_training {classes : Classes}
    make_velocity_env_cfg cfgP :
  bxi_elf3_rough_env_cfg make_velocity_env_cfg true = Ok cfgP ->
  exists cfgT,
    bxi_elf3_rough_env_cfg make_velocity_env_cfg false = Ok cfgT /\
    changed_only_at play_changed_paths cfgT cfgP.
Proof.
  intros H. rewrite rough_play_split in H.
  apply bind_Ok in H. destruct H as (cfgT & HT & H).
  exists cfgT. split; [exact HT|]. clear HT.
  unfold play_overrides in H. cbv zeta in H. invert_binds H.
  match goal with
  | R : get_path [Attr "scene"; Attr "terrain"] ?cfg = Ok ?t,
    G : (if is_none ?t then Ok ?cfg else _) = Ok _ |- _ =>
      destruct (terrain_guard_cases _ _ _ _ R G) as [[_ ->] | (t' & _ & _ & Hbody)];
      clear G; [ | invert_binds Hbody ]
  end.
  all: unfold changed_only_at, play_changed_paths.
  all: split; intros q Hq; split_listed Hq; across_listed_writes; reflexivity.
Qed.

Lemma bxi_elf3_rough_env_cfg_play_against_training_example :
  example_rough_env_cfg (example_velocity_env_cfg example_terrain) true
  = Ok example_rough_play /\
  exists cfgT,
    example_rough_env_cfg (example_velocity_env_cfg example_terrain) false = Ok cfgT /\
    changed_only_at play_changed_paths cfgT example_rough_play.
Proof.
  assert (example_rough_env_cfg (example_velocity_env_cfg example_terrain) true
          = Ok example_rough_play) as H by (vm_compute; reflexivity).
  split; [exact H|].
  exact (bxi_elf3_rough_env_cfg_play_against_training _ _ H).
Defined.
